(** * carousel_pdf.cli: images to a fixed-size PDF carousel

    A shallow embedding of [src/carousel_pdf/cli.py] and of the parts of the
    libraries it calls (Pillow, pathlib, natsort, typer), followed by the
    properties of the canvas normaliser [resize_canvas], of the discovery
    [find_images] and of the command [main].

    Conventions of the embedding.
    - Python [int] is [Z]; [//] with a positive divisor is [Z.div] (floor).
    - Python [float] values that the program computes (aspect ratios, crop
      boxes) are exact rationals [Q]; the integer results derived from them
      are the same except on rounding ties.
    - A call that can raise returns a [result]; calls with visible effects
      (console, files, Pillow operations) run in the logging monad [Run],
      whose log lists the effects in program order. *)

From Stdlib Require Import ZArith QArith Qround List String Ascii Bool Lia Lqa
  Permutation DecimalString DecimalNat Sorted.
Import ListNotations.

Local Open Scope string_scope.
Local Open Scope list_scope.
Local Open Scope Z_scope.

(** ** Exceptions and the logging monad *)

Inductive error : Type :=
| BadParameter (msg : string)        (* typer.BadParameter *)
| Exit (code : Z)                    (* typer.Exit *)
| ValueError (msg : string)
| ZeroDivisionError
| UnidentifiedImageError             (* Image.open on a file it cannot decode *)
| FileNotFoundError
| IsADirectoryError
| IndexError.

Inductive result (A : Type) : Type :=
| Ok (a : A)
| Raise (e : error).
Arguments Ok {A} a.
Arguments Raise {A} e.

(** A path is the list of its components; [name] is the last one. *)
Definition Path := list string.

Definition name (p : Path) : string := last p "".

Module Pillow.

Definition rgb := (Z * Z * Z)%type.

(** [rgbdata im x y] is the colour that [im.convert("RGB")] has at [(x, y)]
    and [alphadata im x y] the value of the last band of
    [im.convert("RGBA")] there (255 for a mode with no transparency).
    [transparency] is ["transparency" in im.info]. *)
Record Image : Type := mkImage {
  mode : string;
  xsize : N;
  ysize : N;
  transparency : bool;
  rgbdata : Z -> Z -> rgb;
  alphadata : Z -> Z -> Z
}.

Definition width (im : Image) : Z := Z.of_N (xsize im).
Definition height (im : Image) : Z := Z.of_N (ysize im).
Definition size (im : Image) : Z * Z := (width im, height im).

Definition in_bounds (im : Image) (x y : Z) : bool :=
  (0 <=? x) && (x <? width im) && (0 <=? y) && (y <? height im).

(** [im.getpixel((x, y))] of an RGB image; [None] stands for IndexError. *)
Definition getpixel (im : Image) (x y : Z) : option rgb :=
  if in_bounds im x y then Some (rgbdata im x y) else None.

(** [im.getbands()]: the band names are the letters of the mode for the
    modes the program tests or creates. *)
Definition getbands (im : Image) : list string :=
  if (mode im =? "P")%string then ["P"]
  else map (fun c => String c "") (list_ascii_of_string (mode im)).

Definition has_alpha_band (im : Image) : bool :=
  existsb (String.eqb "A") (getbands im).

(** Resampling filters. *)
Inductive Resampling : Type := NEAREST | BILINEAR | BICUBIC | LANCZOS.

Definition Box := (Q * Q * Q * Q)%type.

End Pillow.
Export Pillow.

(** ** Effects *)

Inductive message : Type :=
| MsgNoImages                                    (* "No images found." *)
| MsgSummary (slides : nat) (w h : Z) (fit : string) (margin : Z) (bg : string)
| MsgSaved (output : Path).

Inductive event : Type :=
| Printed (m : message)                          (* console.print *)
| Opened (p : Path)                              (* Image.open *)
| Converted (to : string)                        (* Image.convert *)
| Allocated (w h : Z)                            (* Image.new *)
| Pasted (x y : Z)                               (* Image.paste *)
| Resized (w h : Z)                              (* Image.resize *)
| MadeDir (p : Path)                             (* Path.mkdir *)
| Saved (p : Path) (format : string) (pages : list Image).   (* Image.save *)

Definition Run (A : Type) : Type := (list event * result A)%type.

Definition ret {A} (a : A) : Run A := ([], Ok a).

Definition raise {A} (e : error) : Run A := ([], Raise e).

Definition emit (e : event) : Run unit := ([e], Ok tt).

Definition lift {A} (r : result A) : Run A := ([], r).

Definition bind {A B} (m : Run A) (f : A -> Run B) : Run B :=
  match m with
  | (l, Ok a) => let (l', r) := f a in (l ++ l', r)
  | (l, Raise e) => (l, Raise e)
  end.

Declare Scope run_scope.
Delimit Scope run_scope with run.
Notation "x <- m ;; k" := (bind m (fun x => k))
  (at level 61, m at next level, right associativity) : run_scope.
Notation "m ;;; k" := (bind m (fun _ => k))
  (at level 61, right associativity) : run_scope.
Local Open Scope run_scope.

Definition log {A} (m : Run A) : list event := fst m.
Definition outcome {A} (m : Run A) : result A := snd m.

(** ** Python arithmetic *)

(** [a / b] on numbers: true division, ZeroDivisionError on a zero divisor. *)
Definition truediv (a b : Q) : result Q :=
  if Qeq_bool b 0 then Raise ZeroDivisionError else Ok (a / b)%Q.

(** [round(q)]: to the nearest integer, ties to the even one. *)
Definition py_round (q : Q) : Z :=
  let n := Qnum q in
  let d := Zpos (Qden q) in
  let f := n / d in
  match 2 * (n mod d) ?= d with
  | Lt => f
  | Gt => f + 1
  | Eq => if Z.even f then f else f + 1
  end.

Definition Qlt_bool (a b : Q) : bool := negb (Qle_bool b a).

(** ** The file system seen through pathlib *)

Inductive entry : Type :=
| Directory
| Regular (content : option Image).   (* [None]: not a decodable image *)

Definition FS := list (Path * entry).

Definition path_eqb (p q : Path) : bool :=
  if list_eq_dec string_dec p q then true else false.

Fixpoint lookup (fs : FS) (p : Path) : option entry :=
  match fs with
  | [] => None
  | (q, e) :: fs' => if path_eqb q p then Some e else lookup fs' p
  end.

Definition is_dir (fs : FS) (p : Path) : bool :=
  match lookup fs p with Some Directory => true | _ => false end.

Definition is_file (fs : FS) (p : Path) : bool :=
  match lookup fs p with Some (Regular _) => true | _ => false end.

(** ** PIL.Image

    Pillow, pathlib, natsort and typer are dependencies of the program:
    their code is not under src/.  The operations that [cli.py] calls are
    modelled below as far as the program can observe them. *)

Module Image.

(** Modelled from the spec: [Image.open(p)] of Pillow, missing from
    src/: "open the source"; a file that is not an image "propagates as
    an uncaught failure from the underlying image-decoding
    collaborator". *)
Definition open (fs : FS) (p : Path) : Run Image :=
  match lookup fs p with
  | Some (Regular (Some im)) => emit (Opened p) ;;; ret im
  | Some (Regular None) => emit (Opened p) ;;; raise UnidentifiedImageError
  | Some Directory => raise IsADirectoryError
  | None => raise FileNotFoundError
  end.

(** Modelled from the spec: [Image.new(mode, size, color)] of Pillow,
    missing from src/: "allocate a new opaque canvas of exactly
    (target_w, target_h) filled with background_rgb".  Pillow refuses a
    negative side. *)
Definition new (mode : string) (size : Z * Z) (color : rgb) : Run Image :=
  let (w, h) := size in
  if (w <? 0) || (h <? 0)
  then raise (ValueError "Width and height must be >= 0")
  else
    emit (Allocated w h) ;;;
    ret (mkImage mode (Z.to_N w) (Z.to_N h) false
           (fun _ _ => color) (fun _ _ => 255)).

(** Modelled from the spec: [im.convert(mode)] of Pillow, missing from
    src/, for the two targets the program asks for: "reinterpret/convert
    the source to opaque RGB", and the RGBA view whose last band is the
    blend mask. *)
Definition convert (im : Image) (to : string) : Run Image :=
  emit (Converted to) ;;;
  if (to =? "RGB")%string then
    ret (mkImage "RGB" (xsize im) (ysize im) (transparency im)
           (rgbdata im) (fun _ _ => 255))
  else if (to =? "RGBA")%string then
    ret (mkImage "RGBA" (xsize im) (ysize im) false
           (rgbdata im) (alphadata im))
  else raise (ValueError "conversion not supported").

Definition band (im : Image) (f : Z -> Z -> Z) : Image :=
  mkImage "L" (xsize im) (ysize im) false
    (fun x y => (f x y, f x y, f x y)) (fun _ _ => 255).

Definition band_plane (im : Image) (b : string) : Z -> Z -> Z :=
  if (b =? "A")%string then alphadata im
  else if (b =? "G")%string then fun x y => snd (fst (rgbdata im x y))
  else if (b =? "B")%string then fun x y => snd (rgbdata im x y)
  else fun x y => fst (fst (rgbdata im x y)).

(** [im.split()]: one "L" image per band. *)
Definition split (im : Image) : list Image :=
  map (fun b => band im (band_plane im b)) (getbands im).

(** [bands[-1]] *)
Definition last_band (bands : list Image) : Run Image :=
  match rev bands with
  | b :: _ => ret b
  | [] => raise IndexError
  end.

(** The C macro [BLEND(mask, in1, in2)] of Pillow's paste:
    [DIV255(in1 * (255 - mask) + in2 * mask)]
    with [DIV255(a) = (((a + 128) >> 8) + (a + 128)) >> 8]. *)
Definition DIV255 (a : Z) : Z :=
  let tmp := a + 128 in Z.shiftr (Z.shiftr tmp 8 + tmp) 8.

Definition BLEND (mask in1 in2 : Z) : Z :=
  DIV255 (in1 * (255 - mask) + in2 * mask).

Definition blend_rgb (mask : Z) (out inp : rgb) : rgb :=
  let '(r1, g1, b1) := out in
  let '(r2, g2, b2) := inp in
  (BLEND mask r1 r2, BLEND mask g1 g2, BLEND mask b1 b2).

(** The value of an "L" mask at a pixel. *)
Definition mask_value (m : Image) (x y : Z) : Z := fst (fst (rgbdata m x y)).

(** Modelled from the spec: [self.paste(im, box, mask)] of Pillow,
    missing from src/, with a two-element [box] (upper left corner;
    [None] is [(0, 0)]): "composite it over a canvas ... using the alpha
    channel as blend mask", "paste the fitted image".  The region is
    clipped to [self]; the updated [self] is returned. *)
Definition paste (self im : Image) (box : option (Z * Z))
    (mask : option Image) : Run Image :=
  let (x, y) := match box with Some b => b | None => (0, 0) end in
  let mismatch :=
    match mask with
    | Some m => negb ((width m =? width im) && (height m =? height im))
    | None => false
    end in
  if mismatch then raise (ValueError "images do not match")
  else
    emit (Pasted x y) ;;;
    ret (mkImage (mode self) (xsize self) (ysize self) (transparency self)
           (fun px py =>
              if (x <=? px) && (px <? x + width im)
                 && (y <=? py) && (py <? y + height im)
                 && in_bounds self px py
              then
                match mask with
                | Some m =>
                    blend_rgb (mask_value m (px - x) (py - y))
                      (rgbdata self px py) (rgbdata im (px - x) (py - y))
                | None => rgbdata im (px - x) (py - y)
                end
              else rgbdata self px py)
           (alphadata self)).

Section Resample.

(** The resampling kernel of Pillow (pixel arithmetic in C): the value at
    each pixel of the image of the given size obtained by resampling
    the region [box] of the source with the given filter. *)
Variable resample :
  Resampling -> Image -> Box -> Z * Z -> Z -> Z -> rgb * Z.

Definition full_box (self : Image) : Box :=
  (0%Q, 0%Q, inject_Z (width self), inject_Z (height self)).

Definition box_eqb (a b : Box) : bool :=
  let '(a0, a1, a2, a3) := a in
  let '(b0, b1, b2, b3) := b in
  Qeq_bool a0 b0 && Qeq_bool a1 b1 && Qeq_bool a2 b2 && Qeq_bool a3 b3.

(** Modelled from the spec: [self.resize(size, resample, box)] of
    Pillow, missing from src/: the region [box] of the image (all of it
    by default) resampled to [size].  An image that already has the
    size is copied; Pillow refuses a side below one pixel and a box
    outside the image. *)
Definition resize (self : Image) (size : Z * Z) (method : Resampling)
    (box : option Box) : Run Image :=
  let box := match box with Some b => b | None => full_box self end in
  let '(b0, b1, b2, b3) := box in
  let (w, h) := size in
  if (width self =? w) && (height self =? h) && box_eqb box (full_box self)
  then ret self                                       (* self.copy() *)
  else
    let method :=
      if (mode self =? "1")%string || (mode self =? "P")%string
      then NEAREST else method in
    if (w <? 1) || (h <? 1)
    then raise (ValueError "height and width must be > 0")
    else if Qlt_bool b0 0 || Qlt_bool b1 0
    then raise (ValueError "box offset can't be negative")
    else if Qlt_bool (inject_Z (width self)) b2
            || Qlt_bool (inject_Z (height self)) b3
    then raise (ValueError "box can't exceed original image size")
    else if Qlt_bool (b2 - b0) 0 || Qlt_bool (b3 - b1) 0
    then raise (ValueError "box can't be empty")
    else
      emit (Resized w h) ;;;
      ret (mkImage (mode self) (Z.to_N w) (Z.to_N h) (transparency self)
             (fun x y => fst (resample method self box (w, h) x y))
             (fun x y =>
                if has_alpha_band self
                then snd (resample method self box (w, h) x y)
                else 255)).

End Resample.

End Image.

(** ** PIL.ImageOps *)

Module ImageOps.

(** Modelled from the spec: the size that [ImageOps.contain] of Pillow,
    missing from src/, resizes to: "uniformly scale the source so it fits
    entirely within (inner_w, inner_h) (preserving aspect ratio ...)",
    tight on one axis.  The axis to fill is chosen by comparing the two
    aspect ratios; the other side is rounded to the nearest integer. *)
Definition contain_size (image : Image) (size : Z * Z) : Run (Z * Z) :=
  im_ratio <- lift (truediv (inject_Z (width image))
                            (inject_Z (height image))) ;;
  dest_ratio <- lift (truediv (inject_Z (fst size))
                              (inject_Z (snd size))) ;;
  if negb (Qeq_bool im_ratio dest_ratio) then
    if Qlt_bool dest_ratio im_ratio then
      q <- lift (truediv (inject_Z (height image))
                         (inject_Z (width image))) ;;
      let new_height := py_round (q * inject_Z (fst size))%Q in
      if negb (new_height =? snd size) then ret (fst size, new_height)
      else ret size
    else
      q <- lift (truediv (inject_Z (width image))
                         (inject_Z (height image))) ;;
      let new_width := py_round (q * inject_Z (snd size))%Q in
      if negb (new_width =? fst size) then ret (new_width, snd size)
      else ret size
  else ret size.

Definition in_unit (c : Q) : bool := Qle_bool 0 c && Qle_bool c 1.

(** Modelled from the spec: the region that [ImageOps.fit] of Pillow,
    missing from src/, crops: "uniformly scale the source so it fully
    covers (inner_w, inner_h) in both axes ..., then center-crop the
    overflow", that is, the largest region of the aspect ratio of [size]
    inside the image less its [bleed], placed by [centering]. *)
Definition fit_crop (image : Image) (size : Z * Z) (bleed : Q)
    (centering : Q * Q) : Run Box :=
  let centering_x :=
    if in_unit (fst centering) then fst centering else (1 # 2)%Q in
  let centering_y :=
    if in_unit (snd centering) then snd centering else (1 # 2)%Q in
  let bleed :=
    if Qle_bool 0 bleed && Qlt_bool bleed (1 # 2) then bleed else 0%Q in
  let bleed_pixels :=
    ((bleed * inject_Z (width image))%Q,
     (bleed * inject_Z (height image))%Q) in
  let live_size :=
    ((inject_Z (width image) - fst bleed_pixels * 2)%Q,
     (inject_Z (height image) - snd bleed_pixels * 2)%Q) in
  live_size_ratio <- lift (truediv (fst live_size) (snd live_size)) ;;
  output_ratio <- lift (truediv (inject_Z (fst size))
                                (inject_Z (snd size))) ;;
  crop_size <-
    (if Qeq_bool live_size_ratio output_ratio then
       ret live_size
     else if Qle_bool output_ratio live_size_ratio then
       ret ((output_ratio * snd live_size)%Q, snd live_size)
     else
       crop_height <- lift (truediv (fst live_size) output_ratio) ;;
       ret (fst live_size, crop_height)) ;;
  let crop_width := fst (crop_size : Q * Q) in
  let crop_height := snd crop_size in
  let crop_left :=
    (fst bleed_pixels + (fst live_size - crop_width) * centering_x)%Q in
  let crop_top :=
    (snd bleed_pixels + (snd live_size - crop_height) * centering_y)%Q in
  ret (crop_left, crop_top,
       (crop_left + crop_width)%Q, (crop_top + crop_height)%Q).

Section Resample.

Variable resample :
  Resampling -> Image -> Box -> Z * Z -> Z -> Z -> rgb * Z.

(** Modelled from the spec: [ImageOps.contain(image, size, method)],
    missing from src/: the whole image resized to [contain_size]. *)
Definition contain (image : Image) (size : Z * Z) (method : Resampling)
    : Run Image :=
  size <- contain_size image size ;;
  Image.resize resample image size method None.

(** Modelled from the spec: [ImageOps.fit(image, size, method, bleed,
    centering)], missing from src/: the region [fit_crop] resized to
    exactly [size]. *)
Definition fit (image : Image) (size : Z * Z) (method : Resampling)
    (bleed : Q) (centering : Q * Q) : Run Image :=
  crop <- fit_crop image size bleed centering ;;
  Image.resize resample image size method (Some crop).

End Resample.

End ImageOps.

(** ** str and pathlib *)

Definition lower_ascii (c : ascii) : ascii :=
  let n := nat_of_ascii c in
  if (Nat.leb 65 n && Nat.leb n 90)%bool then ascii_of_nat (n + 32) else c.

(** [s.lower()] on ASCII text. *)
Fixpoint lower (s : string) : string :=
  match s with
  | EmptyString => EmptyString
  | String c s' => String (lower_ascii c) (lower s')
  end.

(** [s.rfind(".")], counting from position [i]; [None] is -1. *)
Fixpoint rfind_dot (s : string) (i : nat) : option nat :=
  match s with
  | EmptyString => None
  | String c s' =>
      match rfind_dot s' (S i) with
      | Some j => Some j
      | None => if Ascii.eqb c "." then Some i else None
      end
  end.

(** [p.suffix]: the last dot of the name and what follows it, unless the
    dot starts or ends the name. *)
Definition suffix (p : Path) : string :=
  let nm := name p in
  match rfind_dot nm 0 with
  | Some i =>
      if (Nat.ltb 0 i && Nat.ltb i (String.length nm - 1))%bool
      then substring i (String.length nm - i) nm
      else ""
  | None => ""
  end.

Definition endswith (s suf : string) : bool :=
  let n := String.length s in
  let m := String.length suf in
  (Nat.leb m n && (substring (n - m) m s =? suf)%string)%bool.

Fixpoint strip_prefix (pre s : string) : option string :=
  match pre, s with
  | EmptyString, _ => Some s
  | String a pre', String b s' =>
      if Ascii.eqb a b then strip_prefix pre' s' else None
  | String _ _, EmptyString => None
  end.

(** [q] lies strictly below the directory [p]. *)
Fixpoint below (p q : Path) : bool :=
  match p, q with
  | [], [] => false
  | [], _ :: _ => true
  | a :: p', b :: q' => ((a =? b)%string && below p' q')%bool
  | _ :: _, [] => false
  end.

(** [p.glob(pattern)] of pathlib for the patterns the program builds,
    ["**/*" + ext] with a literal [ext]: every entry at any depth below [p]
    whose name ends with [ext].  The match is the one pathlib makes for a
    POSIX path: case for case. *)
Definition glob (fs : FS) (p : Path) (pattern : string) : list Path :=
  match strip_prefix "**/*" pattern with
  | Some ext =>
      map fst (filter (fun qe => (below p (fst qe)
                                  && endswith (name (fst qe)) ext)%bool) fs)
  | None => []
  end.

(** ** natsort *)

Module natsort.

Inductive chunk : Type :=
| Text (s : string)
| Num (n : N).

Inductive scan : Type :=
| InText (t : string)
| InNum (n : N).

Definition is_digit (c : ascii) : bool :=
  let n := nat_of_ascii c in (Nat.leb 48 n && Nat.leb n 57)%bool.

Definition digit (c : ascii) : N := N.of_nat (nat_of_ascii c - 48).

(** The key of a string: its runs of text and of digits, the latter read
    as numbers, starting with a (possibly empty) run of text. *)
Fixpoint split_runs (s : string) (st : scan) : list chunk :=
  match s with
  | EmptyString =>
      match st with
      | InText EmptyString => []
      | InText t => [Text t]
      | InNum n => [Num n]
      end
  | String c s' =>
      if is_digit c then
        match st with
        | InText t => Text t :: split_runs s' (InNum (digit c))
        | InNum n => split_runs s' (InNum (10 * n + digit c)%N)
        end
      else
        match st with
        | InText t => split_runs s' (InText (t ++ String c "")%string)
        | InNum n => Num n :: split_runs s' (InText (String c ""))
        end
  end.

Definition key (s : string) : list chunk := split_runs s (InText "").

Definition chunk_compare (a b : chunk) : comparison :=
  match a, b with
  | Text s, Text t => String.compare s t
  | Num m, Num n => N.compare m n
  | Text _, Num _ => Gt
  | Num _, Text _ => Lt
  end.

Fixpoint key_compare (k l : list chunk) : comparison :=
  match k, l with
  | [], [] => Eq
  | [], _ :: _ => Lt
  | _ :: _, [] => Gt
  | a :: k', b :: l' =>
      match chunk_compare a b with
      | Eq => key_compare k' l'
      | c => c
      end
  end.

Definition key_leb (k l : list chunk) : bool :=
  match key_compare k l with Gt => false | _ => true end.

Section Sorted.

Context {A : Type} (keyf : A -> string).

(** Stable insertion: [x] goes after the elements not greater than it. *)
Fixpoint insert_last (x : A) (l : list A) : list A :=
  match l with
  | [] => [x]
  | y :: l' =>
      if key_leb (key (keyf y)) (key (keyf x))
      then y :: insert_last x l'
      else x :: l
  end.

(** Modelled from the spec: [natsorted(l, key=keyf)] of natsort,
    missing from src/: "ordering filenames by embedded numeric value
    rather than pure lexicographic character order"; a stable sort by
    the natural key. *)
Definition natsorted (l : list A) : list A :=
  fold_left (fun acc x => insert_last x acc) l [].

End Sorted.

End natsort.

(** ** carousel_pdf.cli *)

Module cli.

(** The set [IMAGE_EXTS], in a fixed order of iteration. *)
Definition IMAGE_EXTS : list string := [".png"; ".jpg"; ".jpeg"; ".webp"].

Definition in_exts (s : string) : bool := existsb (String.eqb s) IMAGE_EXTS.

Definition find_images (fs : FS) (paths : list Path) : list Path :=
  let files :=
    flat_map (fun p =>
      if is_dir fs p then
        flat_map (fun ext => glob fs p ("**/*" ++ ext)%string) IMAGE_EXTS
      else if (is_file fs p && in_exts (lower (suffix p)))%bool then [p]
      else []) paths in
  (* natural sort (e.g., slide2 before slide10) *)
  natsort.natsorted name files.

(** The command line of [main]; typer has already checked that every
    path exists and that [quality] is within 1..95. *)
Record Options : Type := mkOptions {
  paths : list Path;
  output : Path;
  square : bool;
  opt_width : option Z;
  opt_height : option Z;
  fit : string;
  bg : string;
  margin : Z;
  quality : Z;
  export_dir : option Path
}.

Definition is_None {A} (o : option A) : bool :=
  match o with None => true | Some _ => false end.

(** [f"{i:02d}"] for [i >= 0]. *)
Definition format_02d (i : nat) : string :=
  let s := NilEmpty.string_of_uint (Nat.to_uint i) in
  let s := match s with EmptyString => "0" | _ => s end in
  if Nat.ltb (String.length s) 2 then ("0" ++ s)%string else s.

Section Collaborators.

(** The resampling kernel of Pillow. *)
Variable resample :
  Resampling -> Image -> Box -> Z * Z -> Z -> Z -> rgb * Z.

(** [ImageColor.getrgb]; [None] when it raises. *)
Variable getrgb : string -> option rgb.

Definition hex_to_rgb (color : string) : Run rgb :=
  match getrgb color with
  | Some c => ret c
  | None => raise (BadParameter ("Invalid color: " ++ color)%string)
  end.

(** The first step of [resize_canvas]: enforce RGB. *)
Definition flatten (im : Image) (bg : rgb) : Run Image :=
  if ((mode im =? "RGBA")%string || (mode im =? "LA")%string
      || ((mode im =? "P")%string && transparency im))%bool
  then
    base <- Image.new "RGB" (size im) bg ;;
    rgba <- Image.convert im "RGBA" ;;
    rgba' <- Image.convert im "RGBA" ;;
    mask <- Image.last_band (Image.split rgba') ;;
    Image.paste base rgba None (Some mask)
  else Image.convert im "RGB".

Definition resize_canvas (im : Image) (target_w target_h : Z)
    (fit : string) (bg : rgb) (margin : Z) : Run Image :=
  (* enforce RGB *)
  im <- flatten im bg ;;
  (* apply margins by shrinking target box *)
  let inner_w := Z.max 1 (target_w - 2 * margin) in
  let inner_h := Z.max 1 (target_h - 2 * margin) in
  if (fit =? "contain")%string then
    im <- ImageOps.contain resample im (inner_w, inner_h) BICUBIC ;;
    canvas <- Image.new "RGB" (target_w, target_h) bg ;;
    let x := (target_w - width im) / 2 in
    let y := (target_h - height im) / 2 in
    Image.paste canvas im (Some (x, y)) None
  else if (fit =? "cover")%string then
    (* scale so the smaller dimension covers the inner box, then
       center-crop *)
    im <- ImageOps.fit resample im (inner_w, inner_h) LANCZOS
            0%Q ((1 # 2)%Q, (1 # 2)%Q) ;;
    canvas <- Image.new "RGB" (target_w, target_h) bg ;;
    let x := (target_w - width im) / 2 in
    let y := (target_h - height im) / 2 in
    Image.paste canvas im (Some (x, y)) None
  else raise (BadParameter "--fit must be either 'contain' or 'cover'").

(** The loop of [main] over the discovered images ([track] only
  reports the progress on the console). *)
Fixpoint normalize_all (fs : FS) (imgs : list Path)
    (target_w target_h : Z) (fit : string) (bg_rgb : rgb) (margin : Z)
    : Run (list Image) :=
  match imgs with
  | [] => ret []
  | p :: imgs' =>
      im <- Image.open fs p ;;
      canvas <- resize_canvas im target_w target_h fit bg_rgb margin ;;
      normalized <- normalize_all fs imgs' target_w target_h fit bg_rgb
                      margin ;;
      ret (canvas :: normalized)
  end.

(** The optional export of the slides, numbered from [i]. *)
Fixpoint export_slides (dir : Path) (i : nat) (normalized : list Image)
    : Run unit :=
  match normalized with
  | [] => ret tt
  | im :: rest =>
      let outp := dir ++ [("slide_" ++ format_02d i ++ ".jpg")%string] in
      emit (Saved outp "JPEG" [im]) ;;;
      export_slides dir (S i) rest
  end.

Definition main (fs : FS) (o : Options) : Run unit :=
  (if xorb (is_None (opt_width o)) (is_None (opt_height o))
   then raise (BadParameter
                 "If you set --width or --height, you must set both.")
   else ret tt) ;;;
  let (target_w, target_h) :=
    match opt_width o, opt_height o with
    | Some w, Some h => (w, h)
    | _, _ => if square o then (1080, 1080) else (1080, 1350)
    end in
  bg_rgb <- hex_to_rgb (bg o) ;;
  let imgs := find_images fs (paths o) in
  (match imgs with
   | [] => emit (Printed MsgNoImages) ;;; raise (Exit 1)
   | _ :: _ => ret tt
   end) ;;;
  emit (Printed (MsgSummary (List.length imgs) target_w target_h (fit o)
                   (margin o) (bg o))) ;;;
  normalized <- normalize_all fs imgs target_w target_h (fit o) bg_rgb
                  (margin o) ;;
  (* Optional export of per-slide normalized images *)
  (match export_dir o with
   | Some dir => emit (MadeDir dir) ;;; export_slides dir 1 normalized
   | None => ret tt
   end) ;;;
  (* Save multipage PDF *)
  match normalized with
  | first :: rest =>
      emit (Saved (output o) "PDF" (first :: rest)) ;;;
      emit (Printed (MsgSaved (output o)))
  | [] => raise IndexError
  end.

End Collaborators.

End cli.
Import cli.

(** ** The steps of [resize_canvas]

    [resize_canvas] flattens the source, fits it to the inner box and
    places the fitted image on a fresh canvas.  The last two steps are
    named here so that the properties can speak of the fitted image. *)

Section Steps.

Variable resample :
  Resampling -> Image -> Box -> Z * Z -> Z -> Z -> rgb * Z.

(** The test of [resize_canvas] for a source with transparency. *)
Definition wants_flattening (im : Image) : bool :=
  (mode im =? "RGBA")%string || (mode im =? "LA")%string
  || ((mode im =? "P")%string && transparency im).

Definition fit_to_box (flat : Image) (box : Z * Z) (fit : string)
    : Run Image :=
  if (fit =? "contain")%string then
    ImageOps.contain resample flat box BICUBIC
  else if (fit =? "cover")%string then
    ImageOps.fit resample flat box LANCZOS 0%Q ((1 # 2)%Q, (1 # 2)%Q)
  else raise (BadParameter "--fit must be either 'contain' or 'cover'").

Definition place (fitted : Image) (target_w target_h : Z) (bg : rgb)
    : Run Image :=
  canvas <- Image.new "RGB" (target_w, target_h) bg ;;
  Image.paste canvas fitted
    (Some ((target_w - width fitted) / 2, (target_h - height fitted) / 2))
    None.

(** [out] holds the region [box] of [src] resampled to the size of
    [out], or is an unscaled copy of the whole of [src]. *)
Definition resized_from (src : Image) (box : Box) (method : Resampling)
    (out : Image) : Prop :=
  (out = src /\ Image.box_eqb box (Image.full_box src) = true)
  \/ (forall x y,
        rgbdata out x y = fst (resample method src box (size out) x y)).

End Steps.

(** The exit status of the process: typer reports a BadParameter as a
    usage error (2); any other exception ends the interpreter with 1. *)
Definition exit_status (r : result unit) : Z :=
  match r with
  | Ok _ => 0
  | Raise (Exit code) => code
  | Raise (BadParameter _) => 2
  | Raise _ => 1
  end.

(** [(px, py)] lies in the rectangle of size [w] x [h] at [(x, y)]. *)
Definition in_rect (x y w h px py : Z) : bool :=
  (x <=? px) && (px <? x + w) && (y <=? py) && (py <? y + h).

Definition is_saved (e : event) : bool :=
  match e with Saved _ _ _ => true | _ => false end.





(** The page size that [main] derives from its options. *)
Definition target (o : Options) : Z * Z :=
  match opt_width o, opt_height o with
  | Some w, Some h => (w, h)
  | _, _ => if square o then (1080, 1080) else (1080, 1350)
  end.

Definition is_color (c : rgb) : Prop :=
  let '(r, g, b) := c in
  0 <= r <= 255 /\ 0 <= g <= 255 /\ 0 <= b <= 255.

(** ** Vocabulary of the further properties *)

Definition is_madedir (e : event) : bool :=
  match e with MadeDir _ => true | _ => false end.

(** An event that changes the file system. *)
Definition writes (e : event) : bool := is_saved e || is_madedir e.

(** The writing of a PDF. *)
Definition is_pdf_saved (e : event) : bool :=
  match e with Saved _ format _ => (format =? "PDF")%string | _ => false end.

(** An in-memory Pillow operation. *)
Definition is_image_op (e : event) : bool :=
  match e with
  | Converted _ | Allocated _ _ | Pasted _ _ | Resized _ _ => true
  | _ => false
  end.

(** The files opened during a run, in order. *)
Fixpoint opened_paths (l : list event) : list Path :=
  match l with
  | [] => []
  | Opened p :: l' => p :: opened_paths l'
  | _ :: l' => opened_paths l'
  end.

(** [export_dir / f"slide_{i:02d}.jpg"] *)
Definition slide_path (dir : Path) (i : nat) : Path :=
  dir ++ [("slide_" ++ format_02d i ++ ".jpg")%string].

(** What the export loop writes for the pages numbered from [first]. *)
Definition export_events (dir : Path) (first : nat) (pages : list Image)
    : list event :=
  map (fun kp => Saved (slide_path dir (fst kp)) "JPEG" [snd kp])
    (combine (seq first (List.length pages)) pages).

(** [pg] is the canvas that [resize_canvas] makes of the image stored at
    [p]. *)
Definition is_page
    (resample : Resampling -> Image -> Box -> Z * Z -> Z -> Z -> rgb * Z)
    (fs : FS) (tw th : Z) (fit : string) (bg : rgb) (margin : Z)
    (p : Path) (pg : Image) : Prop :=
  exists im,
    lookup fs p = Some (Regular (Some im))
    /\ outcome (resize_canvas resample im tw th fit bg margin) = Ok pg.

(** The decimal number that a string spells. *)
Definition parse_decimal (s : string) : option nat :=
  option_map Nat.of_uint (NilEmpty.uint_of_string s).

(** The number of the slide that a path of the export names. *)
Definition slide_number (p : Path) : option nat :=
  match strip_prefix "slide_" (name p) with
  | Some rest => parse_decimal (substring 0 (String.length rest - 4) rest)
  | None => None
  end.

(** The order of [natsorted(files, key=lambda x: x.name)]. *)
Definition name_leb (p q : Path) : bool :=
  natsort.key_leb (natsort.key (name p)) (natsort.key (name q)).

(** ** Instances of the collaborators

    The development is parametric in Pillow's resampling kernel and in its
    colour parser.  The two instances below make the program runnable
    inside Rocq: nearest-neighbour sampling (what every filter does when
    the filter is [NEAREST]) and the six-digit hexadecimal colours. *)

Module Sample.

Definition nearest (method : Resampling) (src : Image) (box : Box)
    (size : Z * Z) (x y : Z) : rgb * Z :=
  let '(b0, b1, b2, b3) := box in
  let sx := Qfloor (b0 + (inject_Z x + (1 # 2)) * (b2 - b0)
                           / inject_Z (fst size))%Q in
  let sy := Qfloor (b1 + (inject_Z y + (1 # 2)) * (b3 - b1)
                           / inject_Z (snd size))%Q in
  (rgbdata src sx sy, alphadata src sx sy).

Definition hex_digit (c : ascii) : option Z :=
  let n := Z.of_nat (nat_of_ascii c) in
  if (48 <=? n) && (n <=? 57) then Some (n - 48)
  else if (97 <=? n) && (n <=? 102) then Some (n - 87)
  else if (65 <=? n) && (n <=? 70) then Some (n - 55)
  else None.

Definition hex_byte (a b : ascii) : option Z :=
  match hex_digit a, hex_digit b with
  | Some h, Some l => Some (16 * h + l)
  | _, _ => None
  end.

Definition getrgb_hex (color : string) : option rgb :=
  match color with
  | String "#" (String r1 (String r2 (String g1 (String g2
      (String b1 (String b2 EmptyString)))))) =>
      match hex_byte r1 r2, hex_byte g1 g2, hex_byte b1 b2 with
      | Some r, Some g, Some b => Some (r, g, b)
      | _, _, _ => None
      end
  | _ => None
  end.

Definition white : rgb := (255, 255, 255).

(** A 2000x1000 opaque landscape picture, uniformly grey. *)
Definition landscape : Image :=
  mkImage "RGB" 2000 1000 false (fun _ _ => (90, 90, 90)) (fun _ _ => 255).

(** A 4x2 RGBA picture: left half opaque red, right half transparent. *)
Definition half_clear : Image :=
  mkImage "RGBA" 4 2 false (fun _ _ => (200, 0, 0))
    (fun x _ => if x <? 2 then 255 else 0).

(** A 1x1 RGBA picture, black at half opacity. *)
Definition veil : Image :=
  mkImage "RGBA" 1 1 false (fun _ _ => (0, 0, 0)) (fun _ _ => 128).

(** A 10000x1 opaque strip. *)
Definition strip : Image :=
  mkImage "RGB" 10000 1 false (fun _ _ => (0, 0, 0)) (fun _ _ => 255).

Definition flat_landscape : Image :=
  mkImage "RGB" 2000 1000 false (rgbdata landscape) (fun _ _ => 255).

(** A directory with one slide. *)
Definition deck : FS :=
  [(["deck"], Directory);
   (["deck"; "slide1.png"], Regular (Some landscape))].

(** An empty directory. *)
Definition empty_dir : FS := [(["empty"], Directory)].

(** A directory whose only picture has an upper-case extension. *)
Definition shots : FS :=
  [(["shots"], Directory);
   (["shots"; "PHOTO.PNG"], Regular (Some landscape))].

(** A 100x80 opaque picture. *)
Definition card : Image :=
  mkImage "RGB" 100 80 false (fun x y => (x, y, 7)) (fun _ _ => 255).

(** Two slides, the second of which is not an image. *)
Definition torn : FS :=
  [(["talk"], Directory);
   (["talk"; "a1.png"], Regular (Some card));
   (["talk"; "a2.png"], Regular None);
   (["talk"; "a3.png"], Regular (Some card))].

(** Three slides and a directory named like a picture. *)
Definition talk : FS :=
  [(["talk"], Directory);
   (["talk"; "s10.png"], Regular (Some card));
   (["talk"; "s2.jpg"], Regular (Some landscape));
   (["talk"; "s1.webp"], Regular (Some card));
   (["talk"; "notes.txt"], Regular None)].

Definition album : FS :=
  [(["album"], Directory);
   (["album"; "old.png"], Directory)].

(** The command line [carousel-pdf <paths> --fit <fit>]. *)
Definition options (paths : list Path) (fit : string) : Options :=
  mkOptions paths ["carousel.pdf"] false None None fit "#ffffff" 0 92 None.

End Sample.

(** * Properties *)

(** ** The logging monad *)

Lemma outcome_bind_Ok {A B} (m : Run A) (f : A -> Run B) (b : B) :
  outcome (bind m f) = Ok b <->
  exists a, outcome m = Ok a /\ outcome (f a) = Ok b.
Proof.
  unfold outcome, bind. destruct m as [l [a | e]]; simpl.
  - destruct (f a) as [l' r] eqn:E; simpl. split.
    + intros ->. exists a. rewrite E. auto.
    + intros [a' [Ha Hb]]. injection Ha as <-. now rewrite E in Hb.
  - split; [discriminate | intros [a [Ha _]]; discriminate].
Qed.

Lemma bind_Ok {A B} (m : Run A) (f : A -> Run B) (a : A) :
  outcome m = Ok a -> bind m f = (log m ++ log (f a), outcome (f a)).
Proof.
  unfold outcome, log, bind. destruct m as [l r]; simpl. intros ->.
  now destruct (f a).
Qed.


Lemma bind_assoc {A B C} (m : Run A) (f : A -> Run B) (g : B -> Run C) :
  bind (bind m f) g = bind m (fun a => bind (f a) g).
Proof.
  unfold bind. destruct m as [l [a | e]]; [| reflexivity].
  destruct (f a) as [l' [b | e]]; [| reflexivity].
  destruct (g b) as [l'' r]. now rewrite app_assoc.
Qed.

Lemma bind_ret {A B} (a : A) (f : A -> Run B) : bind (ret a) f = f a.
Proof. unfold bind, ret. now destruct (f a). Qed.

Lemma bind_lift_Ok {A B} (a : A) (f : A -> Run B) :
  bind (lift (Ok a)) f = f a.
Proof. exact (bind_ret a f). Qed.

Lemma outcome_bind {A B} (m : Run A) (f : A -> Run B) (a : A) :
  outcome m = Ok a -> outcome (bind m f) = outcome (f a).
Proof. intros H. now rewrite (bind_Ok m f a H). Qed.

Lemma log_bind {A B} (m : Run A) (f : A -> Run B) (a : A) :
  outcome m = Ok a -> log (bind m f) = log m ++ log (f a).
Proof. intros H. now rewrite (bind_Ok m f a H). Qed.

Lemma run_eta {A} (m : Run A) : m = (log m, outcome m).
Proof. now destruct m. Qed.

(** Decompose a successful sequence into its successful steps. *)
Ltac bind_inv H :=
  let a := fresh "v" in
  let Ha := fresh "Hv" in
  apply outcome_bind_Ok in H; destruct H as [a [Ha H]].

(** ** Pillow primitives *)

Lemma new_Ok md w h c :
  0 <= w -> 0 <= h ->
  Image.new md (w, h) c =
    ([Allocated w h],
     Ok (mkImage md (Z.to_N w) (Z.to_N h) false (fun _ _ => c)
           (fun _ _ => 255))).
Proof.
  intros Hw Hh. unfold Image.new.
  destruct (w <? 0) eqn:E1; [apply Z.ltb_lt in E1; lia |].
  destruct (h <? 0) eqn:E2; [apply Z.ltb_lt in E2; lia |].
  reflexivity.
Qed.

Lemma new_inv md w h c im :
  outcome (Image.new md (w, h) c) = Ok im ->
  0 <= w /\ 0 <= h /\
  im = mkImage md (Z.to_N w) (Z.to_N h) false (fun _ _ => c) (fun _ _ => 255).
Proof.
  unfold Image.new.
  destruct (w <? 0) eqn:E1; [discriminate |].
  destruct (h <? 0) eqn:E2; [discriminate |].
  apply Z.ltb_ge in E1, E2. simpl. intros H. injection H as <-. auto.
Qed.

Lemma new_size md w h c im :
  outcome (Image.new md (w, h) c) = Ok im ->
  width im = w /\ height im = h /\ mode im = md.
Proof.
  intros H. apply new_inv in H. destruct H as (Hw & Hh & ->).
  unfold width, height; simpl. repeat split; try lia.
Qed.

Lemma paste_plain self im x y :
  Image.paste self im (Some (x, y)) None =
    ([Pasted x y],
     Ok (mkImage (mode self) (xsize self) (ysize self) (transparency self)
           (fun px py =>
              if (x <=? px) && (px <? x + width im)
                 && (y <=? py) && (py <? y + height im)
                 && in_bounds self px py
              then rgbdata im (px - x) (py - y)
              else rgbdata self px py)
           (alphadata self))).
Proof. reflexivity. Qed.

Lemma paste_keeps_shape self im box mask out :
  outcome (Image.paste self im box mask) = Ok out ->
  mode out = mode self /\ xsize out = xsize self /\ ysize out = ysize self
  /\ alphadata out = alphadata self.
Proof.
  unfold Image.paste.
  destruct (match box with Some b => b | None => (0, 0) end) as [x y].
  match goal with |- context [if ?c then _ else _] => destruct c end;
    [discriminate |].
  simpl. intros H. injection H as <-. auto.
Qed.

(** ** Rational arithmetic of the fitting steps *)

Lemma truediv_Ok (a b : Q) : ~ (b == 0)%Q -> truediv a b = Ok (a / b)%Q.
Proof.
  intros H. unfold truediv. destruct (Qeq_bool b 0) eqn:E; [| reflexivity].
  apply Qeq_bool_iff in E. contradiction.
Qed.

Lemma inject_Z_pos (n : Z) : 1 <= n -> (0 < inject_Z n)%Q.
Proof. intros H. unfold Qlt. simpl. lia. Qed.

Lemma Qlt_bool_iff (a b : Q) : Qlt_bool a b = true <-> (a < b)%Q.
Proof.
  unfold Qlt_bool. rewrite negb_true_iff. split.
  - intros H. apply Qnot_le_lt. intros Hle.
    apply Qle_bool_iff in Hle. congruence.
  - intros H. destruct (Qle_bool b a) eqn:E; [| reflexivity].
    apply Qle_bool_iff in E. exfalso. exact (Qlt_not_le _ _ H E).
Qed.

Lemma Qlt_bool_false (a b : Q) : Qlt_bool a b = false <-> (b <= a)%Q.
Proof.
  unfold Qlt_bool. rewrite negb_false_iff. apply Qle_bool_iff.
Qed.

(** The crop of [ImageOps.fit] with no bleed and central placement. *)
Lemma fit_crop_center im iw ih :
  1 <= width im -> 1 <= height im -> 1 <= iw -> 1 <= ih ->
  exists l t r b : Q,
    ImageOps.fit_crop im (iw, ih) 0%Q ((1 # 2)%Q, (1 # 2)%Q)
      = ret (l, t, r, b)
    /\ (0 <= l /\ 0 <= t /\ r <= inject_Z (width im)
        /\ b <= inject_Z (height im))%Q
    /\ (l + r == inject_Z (width im) /\ t + b == inject_Z (height im))%Q
    /\ ((r - l) * inject_Z ih == (b - t) * inject_Z iw)%Q
    /\ (r - l == inject_Z (width im) \/ b - t == inject_Z (height im))%Q
    /\ (0 < r - l /\ 0 < b - t)%Q.
Proof.
  intros Hw Hh Hiw Hih.
  pose proof (inject_Z_pos _ Hw) as Qw. pose proof (inject_Z_pos _ Hh) as Qh.
  pose proof (inject_Z_pos _ Hiw) as Qiw.
  pose proof (inject_Z_pos _ Hih) as Qih.
  unfold ImageOps.fit_crop.
  cbn [fst snd].
  change (ImageOps.in_unit (1 # 2)) with true.
  change (Qle_bool 0 0 && Qlt_bool 0 (1 # 2)) with true.
  cbv iota.
  set (W := inject_Z (width im)) in *. set (H := inject_Z (height im)) in *.
  set (IW := inject_Z iw) in *. set (IH := inject_Z ih) in *.
  assert (EL : ((W - 0 * W * 2) / (H - 0 * H * 2) * H == W)%Q)
    by (field; lra).
  assert (ER : (IW / IH * IH == IW)%Q) by (field; lra).
  rewrite (truediv_Ok (W - 0 * W * 2) (H - 0 * H * 2)) by lra.
  rewrite (truediv_Ok IW IH) by lra.
  rewrite !bind_lift_Ok.
  set (L := ((W - 0 * W * 2) / (H - 0 * H * 2))%Q) in *.
  set (R := (IW / IH)%Q) in *.
  assert (HR : (0 < R)%Q).
  { destruct (Qlt_le_dec 0 R) as [? | Hn]; [assumption | exfalso; nra]. }
  destruct (Qeq_bool L R) eqn:E1.
  - apply Qeq_bool_iff in E1. rewrite bind_ret. cbn [fst snd].
    do 4 eexists. split; [reflexivity |].
    repeat apply conj; try lra; try nra; try (left; lra).
  - apply Qeq_bool_neq in E1.
    destruct (Qle_bool R L) eqn:E2.
    + apply Qle_bool_iff in E2. rewrite bind_ret. cbn [fst snd].
      do 4 eexists. split; [reflexivity |].
      repeat apply conj; try lra; try nra; try (right; lra).
    + assert (E3 : (L < R)%Q).
      { apply Qnot_le_lt. intros Hle. apply Qle_bool_iff in Hle. congruence. }
      assert (ED : ((W - 0 * W * 2) / R * R == W)%Q) by (field; lra).
      rewrite (truediv_Ok (W - 0 * W * 2) R) by lra.
      rewrite bind_lift_Ok, !bind_ret. cbn [fst snd].
      set (D := ((W - 0 * W * 2) / R)%Q) in *.
      assert (HD : (0 < D)%Q).
      { destruct (Qlt_le_dec 0 D) as [? | Hn]; [assumption | exfalso; nra]. }
      do 4 eexists. split; [reflexivity |].
      repeat apply conj; try lra; try nra; try (left; lra).
Qed.


Lemma py_round_near (q : Q) :
  (inject_Z (py_round q) - q <= 1 # 2 /\ q - inject_Z (py_round q) <= 1 # 2)%Q.
Proof.
  destruct q as [n p]. unfold py_round. cbn [Qnum Qden].
  pose proof (Z.div_mod n (Zpos p) ltac:(lia)) as Hdm.
  pose proof (Z.mod_pos_bound n (Zpos p) ltac:(lia)) as Hb.
  set (f := n / Zpos p) in *. set (m := n mod Zpos p) in *.
  clearbody f m.
  destruct (2 * m ?= Zpos p) eqn:E.
  - apply Z.compare_eq in E.
    destruct (Z.even f); unfold Qle, Qminus, Qplus, Qopp, inject_Z;
      simpl; split; lia.
  - change (2 * m < Z.pos p) in E.
    unfold Qle, Qminus, Qplus, Qopp, inject_Z; simpl; split; lia.
  - apply Z.compare_gt_iff in E.
    unfold Qle, Qminus, Qplus, Qopp, inject_Z; simpl; split; lia.
Qed.

(** [round(a / b * c)] is an integer nearest to [a * c / b]. *)
Lemma py_round_ratio (a b c : Z) :
  1 <= b ->
  let r := py_round (inject_Z a / inject_Z b * inject_Z c)%Q in
  2 * Z.abs (r * b - a * c) <= b.
Proof.
  intros Hb r.
  pose proof (py_round_near (inject_Z a / inject_Z b * inject_Z c)%Q)
    as [H1 H2].
  fold r in H1, H2.
  pose proof (inject_Z_pos _ Hb) as Qb.
  assert (E : (inject_Z a / inject_Z b * inject_Z b == inject_Z a)%Q)
    by (field; lra).
  set (q := (inject_Z a / inject_Z b)%Q) in *.
  assert (U : (2 * (inject_Z r * inject_Z b - inject_Z a * inject_Z c)
               <= inject_Z b)%Q) by nra.
  assert (L : (2 * (inject_Z a * inject_Z c - inject_Z r * inject_Z b)
               <= inject_Z b)%Q) by nra.
  clearbody r. clear - U L.
  cbv [Qle Qmult Qminus Qplus Qopp inject_Z Qnum Qden] in U, L. lia.
Qed.

Ltac q2z H :=
  cbv [Qle Qlt Qeq Qmult Qminus Qplus Qopp inject_Z Qnum Qden] in H.

Lemma ratio_lt (a b c d : Z) :
  1 <= b -> 1 <= d ->
  (inject_Z a / inject_Z b < inject_Z c / inject_Z d)%Q -> a * d < c * b.
Proof.
  intros Hb Hd H.
  pose proof (inject_Z_pos _ Hb) as Qb. pose proof (inject_Z_pos _ Hd) as Qd.
  assert (E1 : (inject_Z a / inject_Z b * inject_Z b == inject_Z a)%Q)
    by (field; lra).
  assert (E2 : (inject_Z c / inject_Z d * inject_Z d == inject_Z c)%Q)
    by (field; lra).
  set (x := (inject_Z a / inject_Z b)%Q) in *.
  set (y := (inject_Z c / inject_Z d)%Q) in *.
  assert (P : (0 < (y - x) * (inject_Z b * inject_Z d))%Q)
    by (apply Qmult_lt_0_compat; [lra | apply Qmult_lt_0_compat; lra]).
  assert (U : (inject_Z a * inject_Z d < inject_Z c * inject_Z b)%Q).
  { rewrite <- E1, <- E2. lra. }
  clear - U. q2z U. lia.
Qed.

Lemma ratio_eq (a b c d : Z) :
  1 <= b -> 1 <= d ->
  (inject_Z a / inject_Z b == inject_Z c / inject_Z d)%Q -> a * d = c * b.
Proof.
  intros Hb Hd H.
  pose proof (inject_Z_pos _ Hb) as Qb. pose proof (inject_Z_pos _ Hd) as Qd.
  assert (E1 : (inject_Z a / inject_Z b * inject_Z b == inject_Z a)%Q)
    by (field; lra).
  assert (E2 : (inject_Z c / inject_Z d * inject_Z d == inject_Z c)%Q)
    by (field; lra).
  set (x := (inject_Z a / inject_Z b)%Q) in *.
  set (y := (inject_Z c / inject_Z d)%Q) in *.
  assert (U : (inject_Z a * inject_Z d == inject_Z c * inject_Z b)%Q).
  { rewrite <- E1, <- E2, H. ring. }
  clear - U. q2z U. lia.
Qed.

Lemma contain_size_zero_height im size :
  height im = 0 ->
  ImageOps.contain_size im size = ([], Raise ZeroDivisionError).
Proof.
  intros H. unfold ImageOps.contain_size. rewrite H. reflexivity.
Qed.

(** The size chosen by [ImageOps.contain]: inside the box, equal to it on
    one axis, and on the other the nearest integer to the uniformly scaled
    length. *)
Lemma contain_size_spec im iw ih :
  1 <= height im -> 1 <= iw -> 1 <= ih ->
  exists cw ch,
    ImageOps.contain_size im (iw, ih) = ret (cw, ch)
    /\ cw <= iw /\ ch <= ih
    /\ ((cw = iw /\ 2 * Z.abs (ch * width im - height im * iw) <= width im)
        \/ (ch = ih
            /\ 2 * Z.abs (cw * height im - width im * ih) <= height im)).
Proof.
  intros Hh Hiw Hih.
  pose proof (inject_Z_pos _ Hh) as Qh.
  pose proof (inject_Z_pos _ Hiw) as Qiw.
  pose proof (inject_Z_pos _ Hih) as Qih.
  unfold ImageOps.contain_size. cbn [fst snd].
  rewrite (truediv_Ok _ (inject_Z (height im))) by lra.
  rewrite (truediv_Ok _ (inject_Z ih)) by lra.
  rewrite !bind_lift_Ok.
  destruct (Qeq_bool (inject_Z (width im) / inject_Z (height im))
              (inject_Z iw / inject_Z ih)) eqn:E1; cbn [negb].
  - apply Qeq_bool_iff, ratio_eq in E1; try assumption.
    exists iw, ih. split; [reflexivity |].
    repeat apply conj; first [lia | left; split; nia].
  - apply Qeq_bool_neq in E1.
    destruct (Qlt_bool (inject_Z iw / inject_Z ih)
                (inject_Z (width im) / inject_Z (height im))) eqn:E2.
    + apply Qlt_bool_iff, ratio_lt in E2; try assumption.
      assert (Hw : 1 <= width im) by nia.
      pose proof (inject_Z_pos _ Hw) as Qw.
      rewrite (truediv_Ok _ (inject_Z (width im))) by lra.
      rewrite bind_lift_Ok.
      pose proof (py_round_ratio (height im) (width im) iw Hw) as Hr.
      cbv zeta in Hr.
      set (nh := py_round _) in *. clearbody nh.
      exists iw, nh. split.
      * destruct (nh =? ih) eqn:E3; cbn [negb]; [| reflexivity].
        apply Z.eqb_eq in E3. now subst.
      * repeat apply conj; first [lia | nia | left; split; lia].
    + apply Qlt_bool_false in E2.
      assert (E3 : (inject_Z (width im) / inject_Z (height im)
                    < inject_Z iw / inject_Z ih)%Q).
      { apply Qle_lt_or_eq in E2. destruct E2 as [E2 | E2];
          [assumption | contradiction]. }
      apply ratio_lt in E3; try assumption.
      pose proof (py_round_ratio (width im) (height im) ih Hh) as Hr.
      cbv zeta in Hr.
      set (nw := py_round _) in *. clearbody nw.
      exists nw, ih. split.
      * destruct (nw =? iw) eqn:E4; cbn [negb]; [| reflexivity].
        apply Z.eqb_eq in E4. now subst.
      * repeat apply conj; first [lia | nia | right; split; lia].
Qed.

(** ** The blend of [paste] *)

Lemma DIV255_255 (x : Z) : 0 <= x <= 255 -> Image.DIV255 (255 * x) = x.
Proof.
  intros H. unfold Image.DIV255. cbv zeta.
  rewrite !Z.shiftr_div_pow2 by lia. change (2 ^ 8) with 256.
  assert (E : (255 * x + 128) / 256 = if x <=? 128 then x else x - 1).
  { destruct (x <=? 128) eqn:E; [apply Z.leb_le in E | apply Z.leb_gt in E];
      symmetry.
    - apply Z.div_unique_pos with (r := 128 - x); lia.
    - apply Z.div_unique_pos with (r := 384 - x); lia. }
  rewrite E. symmetry.
  destruct (x <=? 128) eqn:E'; [apply Z.leb_le in E' | apply Z.leb_gt in E'].
  - apply Z.div_unique_pos with (r := 128); lia.
  - apply Z.div_unique_pos with (r := 127); lia.
Qed.

Lemma BLEND_transparent (out inp : Z) :
  0 <= out <= 255 -> Image.BLEND 0 out inp = out.
Proof.
  intros H. unfold Image.BLEND.
  replace (out * (255 - 0) + inp * 0) with (255 * out) by lia.
  now apply DIV255_255.
Qed.

Lemma BLEND_opaque (out inp : Z) :
  0 <= inp <= 255 -> Image.BLEND 255 out inp = inp.
Proof.
  intros H. unfold Image.BLEND.
  replace (out * (255 - 255) + inp * 255) with (255 * inp) by lia.
  now apply DIV255_255.
Qed.

Lemma blend_rgb_transparent (bg c : rgb) :
  is_color bg -> Image.blend_rgb 0 bg c = bg.
Proof.
  destruct bg as [[r g] b], c as [[r' g'] b']. intros (Hr & Hg & Hb).
  unfold Image.blend_rgb. now rewrite !BLEND_transparent.
Qed.

Lemma blend_rgb_opaque (bg c : rgb) :
  is_color c -> Image.blend_rgb 255 bg c = c.
Proof.
  destruct bg as [[r g] b], c as [[r' g'] b']. intros (Hr & Hg & Hb).
  unfold Image.blend_rgb. now rewrite !BLEND_opaque.
Qed.

Lemma half_two (m : Z) : 2 * m / 2 = m.
Proof. rewrite Z.mul_comm. apply Z.div_mul. lia. Qed.

Lemma bind_ext {A B} (m : Run A) (f g : A -> Run B) :
  (forall a, f a = g a) -> bind m f = bind m g.
Proof.
  intros H. unfold bind. destruct m as [l [a | e]]; [| reflexivity].
  now rewrite H.
Qed.

(** ** [resize_canvas] step by step *)

Section Canvas.

Variable resample :
  Resampling -> Image -> Box -> Z * Z -> Z -> Z -> rgb * Z.

Lemma resize_canvas_steps im tw th fit bg margin :
  resize_canvas resample im tw th fit bg margin =
    (flat <- flatten im bg ;;
     fitted <- fit_to_box resample flat
                 (Z.max 1 (tw - 2 * margin), Z.max 1 (th - 2 * margin))
                 fit ;;
     place fitted tw th bg).
Proof.
  unfold resize_canvas. apply bind_ext. intros flat.
  unfold fit_to_box, place.
  destruct (fit =? "contain")%string; [reflexivity |].
  destruct (fit =? "cover")%string; reflexivity.
Qed.

Lemma flatten_opaque im bg :
  wants_flattening im = false ->
  flatten im bg =
    ([Converted "RGB"],
     Ok (mkImage "RGB" (xsize im) (ysize im) (transparency im)
           (rgbdata im) (fun _ _ => 255))).
Proof.
  unfold wants_flattening, flatten. intros ->. reflexivity.
Qed.

Lemma flatten_alpha im bg :
  wants_flattening im = true ->
  exists flat,
    flatten im bg =
      ([Allocated (width im) (height im); Converted "RGBA";
        Converted "RGBA"; Pasted 0 0], Ok flat)
    /\ mode flat = "RGB" /\ xsize flat = xsize im /\ ysize flat = ysize im
    /\ (forall x y, alphadata flat x y = 255)
    /\ (forall x y, in_bounds im x y = true ->
          rgbdata flat x y =
            Image.blend_rgb (alphadata im x y) bg (rgbdata im x y))
    /\ (forall x y, in_bounds im x y = false -> rgbdata flat x y = bg).
Proof.
  unfold wants_flattening, flatten. intros ->.
  unfold size. rewrite new_Ok by (unfold width, height; lia).
  unfold width, height. rewrite !N2Z.id.
  cbn [bind Image.convert emit ret app fst snd].
  cbn.
  unfold width, height, Image.band; cbn [xsize ysize].
  rewrite !Z.eqb_refl. cbn.
  eexists. split; [reflexivity |]. cbn.
  repeat apply conj; auto.
  - intros x y Hin. unfold in_bounds, width, height in *.
    cbn [xsize ysize]. rewrite !Z.sub_0_r.
    rewrite !andb_true_iff in Hin. destruct Hin as [[[H1 H2] H3] H4].
    now rewrite H1, H2, H3, H4.
  - intros x y Hin. unfold in_bounds, width, height in *.
    cbn [xsize ysize]. rewrite Hin.
    now rewrite andb_false_r.
Qed.

(** Flattening never fails and always yields an RGB image of the size of
    the source. *)
Lemma flatten_Ok im bg :
  exists flat,
    outcome (flatten im bg) = Ok flat
    /\ mode flat = "RGB" /\ xsize flat = xsize im /\ ysize flat = ysize im
    /\ (forall x y, alphadata flat x y = 255).
Proof.
  destruct (wants_flattening im) eqn:E.
  - destruct (flatten_alpha im bg E) as (flat & -> & H).
    exists flat. simpl. intuition.
  - rewrite (flatten_opaque im bg E). eexists. simpl. intuition.
Qed.

Lemma place_inv fitted tw th bg canvas :
  outcome (place fitted tw th bg) = Ok canvas ->
  0 <= tw /\ 0 <= th
  /\ width canvas = tw /\ height canvas = th /\ mode canvas = "RGB"
  /\ (forall x y, alphadata canvas x y = 255)
  /\ (forall px py,
        rgbdata canvas px py =
          let x := (tw - width fitted) / 2 in
          let y := (th - height fitted) / 2 in
          if (x <=? px) && (px <? x + width fitted)
             && (y <=? py) && (py <? y + height fitted)
             && ((0 <=? px) && (px <? tw) && (0 <=? py) && (py <? th))
          then rgbdata fitted (px - x) (py - y)
          else bg).
Proof.
  unfold place. intros H. bind_inv H.
  apply new_inv in Hv. destruct Hv as (Hw & Hh & ->).
  rewrite paste_plain in H. simpl in H. injection H as <-.
  repeat apply conj; auto;
    try (unfold width, height; cbn [xsize ysize]; lia).
  intros px py. cbn [rgbdata]. unfold in_bounds, width, height.
  cbn [xsize ysize]. rewrite !Z2N.id by lia. reflexivity.
Qed.

Lemma place_Ok fitted tw th bg :
  0 <= tw -> 0 <= th ->
  exists canvas,
    place fitted tw th bg =
      ([Allocated tw th;
        Pasted ((tw - width fitted) / 2) ((th - height fitted) / 2)],
       Ok canvas).
Proof.
  intros Hw Hh. unfold place. rewrite new_Ok by assumption.
  cbn. eexists. reflexivity.
Qed.

(** Whatever the source, the fit mode and the margin, a canvas that
    [resize_canvas] returns has the target size and is an RGB image. *)
Lemma resize_canvas_shape im tw th fit bg margin canvas :
  outcome (resize_canvas resample im tw th fit bg margin) = Ok canvas ->
  width canvas = tw /\ height canvas = th /\ mode canvas = "RGB"
  /\ (forall x y, alphadata canvas x y = 255).
Proof.
  rewrite resize_canvas_steps. intros H.
  bind_inv H. bind_inv H. apply place_inv in H. intuition.
Qed.

(** *** Resizing *)

Lemma resize_size im w h m box out :
  outcome (Image.resize resample im (w, h) m box) = Ok out ->
  width out = w /\ height out = h /\ mode out = mode im.
Proof.
  unfold Image.resize.
  destruct (match box with Some b => b | None => Image.full_box im end)
    as [[[b0 b1] b2] b3].
  destruct ((width im =? w) && (height im =? h)
            && Image.box_eqb (b0, b1, b2, b3) (Image.full_box im)) eqn:E.
  - rewrite !andb_true_iff in E. destruct E as [[E1 E2] _].
    apply Z.eqb_eq in E1, E2. simpl. intros H. injection H as <-. auto.
  - destruct ((w <? 1) || (h <? 1)) eqn:E1; [discriminate |].
    apply orb_false_iff in E1. destruct E1 as [E1 E2].
    apply Z.ltb_ge in E1, E2.
    repeat match goal with
           | |- context [if ?c then _ else _] =>
               destruct c; [discriminate |]
           end.
    simpl. intros H. injection H as <-.
    unfold width, height. cbn [xsize ysize mode].
    repeat apply conj; first [lia | reflexivity].
Qed.

Lemma box_eqb_refl b : Image.box_eqb b b = true.
Proof.
  destruct b as [[[b0 b1] b2] b3]. unfold Image.box_eqb.
  now rewrite !Qeq_bool_refl.
Qed.

Lemma resize_full im w h m :
  mode im = "RGB" ->
  Image.resize resample im (w, h) m None =
    if (width im =? w) && (height im =? h) then ret im
    else if (w <? 1) || (h <? 1)
    then raise (ValueError "height and width must be > 0")
    else
      ([Resized w h],
       Ok (mkImage "RGB" (Z.to_N w) (Z.to_N h) (transparency im)
             (fun x y =>
                fst (resample m im (Image.full_box im) (w, h) x y))
             (fun _ _ => 255))).
Proof.
  intros Hm. unfold Image.resize.
  change (Image.full_box im)
    with (0%Q, 0%Q, inject_Z (width im), inject_Z (height im)) at 1.
  cbv iota beta. rewrite box_eqb_refl, andb_true_r.
  destruct ((width im =? w) && (height im =? h)); [reflexivity |].
  destruct ((w <? 1) || (h <? 1)); [reflexivity |].
  assert (E0 : Qlt_bool 0 0 = false) by reflexivity.
  assert (Ew : Qlt_bool (inject_Z (width im)) (inject_Z (width im)) = false)
    by (apply Qlt_bool_false; apply Qle_refl).
  assert (Eh : Qlt_bool (inject_Z (height im)) (inject_Z (height im))
               = false)
    by (apply Qlt_bool_false; apply Qle_refl).
  assert (Ew' : Qlt_bool (inject_Z (width im) - 0) 0 = false).
  { apply Qlt_bool_false. unfold width, Qle, Qminus, Qplus, inject_Z.
    simpl. lia. }
  assert (Eh' : Qlt_bool (inject_Z (height im) - 0) 0 = false).
  { apply Qlt_bool_false. unfold height, Qle, Qminus, Qplus, inject_Z.
    simpl. lia. }
  rewrite E0, Ew, Eh, Ew', Eh'. cbn [orb].
  unfold has_alpha_band, getbands. rewrite Hm. cbn.
  reflexivity.
Qed.

(** *** Contain *)

Lemma contain_inv im iw ih m fitted :
  1 <= iw -> 1 <= ih ->
  outcome (ImageOps.contain resample im (iw, ih) m) = Ok fitted ->
  1 <= height im
  /\ width fitted <= iw /\ height fitted <= ih
  /\ ((width fitted = iw
       /\ 2 * Z.abs (height fitted * width im - height im * iw)
          <= width im)
      \/ (height fitted = ih
          /\ 2 * Z.abs (width fitted * height im - width im * ih)
             <= height im))
  /\ mode fitted = mode im
  /\ (mode im = "RGB" ->
      resized_from resample im (Image.full_box im) m fitted).
Proof.
  intros Hiw Hih H. unfold ImageOps.contain in H.
  assert (Hh : 1 <= height im).
  { destruct (Z.eq_dec (height im) 0) as [E | E].
    - rewrite (contain_size_zero_height im _ E) in H. discriminate.
    - unfold height in *. lia. }
  destruct (contain_size_spec im iw ih Hh Hiw Hih)
    as (cw & ch & Hs & Hcw & Hch & Hnear).
  rewrite Hs, bind_ret in H.
  pose proof (resize_size _ _ _ _ _ _ H) as (Ew & Eh & Em).
  rewrite Ew, Eh. repeat apply conj; try assumption.
  intros Hm. rewrite (resize_full im cw ch m Hm) in H.
  destruct ((width im =? cw) && (height im =? ch)).
  - left. simpl in H. injection H as <-. split; [reflexivity |].
    apply box_eqb_refl.
  - destruct ((cw <? 1) || (ch <? 1)); [discriminate |].
    simpl in H. injection H as <-. right. intros x y.
    unfold size, width, height. cbn [xsize ysize rgbdata].
    rewrite !Z2N.id by (unfold width, height in *; lia). reflexivity.
Qed.

Lemma contain_Ok im iw ih m :
  mode im = "RGB" ->
  1 <= width im -> 1 <= height im -> 1 <= iw -> 1 <= ih ->
  width im < 2 * height im * iw -> height im < 2 * width im * ih ->
  exists fitted, outcome (ImageOps.contain resample im (iw, ih) m) = Ok fitted.
Proof.
  intros Hm Hw Hh Hiw Hih Hthin Htall. unfold ImageOps.contain.
  destruct (contain_size_spec im iw ih Hh Hiw Hih)
    as (cw & ch & Hs & Hcw & Hch & Hnear).
  rewrite Hs, bind_ret, (resize_full im cw ch m Hm).
  destruct ((width im =? cw) && (height im =? ch)); [eexists; reflexivity |].
  assert (E : (cw <? 1) || (ch <? 1) = false).
  { apply orb_false_iff. split; apply Z.ltb_ge; nia. }
  rewrite E. eexists. reflexivity.
Qed.

(** *** Cover *)

Lemma fit_size im iw ih m bleed c fitted :
  outcome (ImageOps.fit resample im (iw, ih) m bleed c) = Ok fitted ->
  width fitted = iw /\ height fitted = ih /\ mode fitted = mode im.
Proof.
  unfold ImageOps.fit. intros H. bind_inv H.
  exact (resize_size _ _ _ _ _ _ H).
Qed.

Lemma fit_Ok im iw ih :
  mode im = "RGB" ->
  1 <= width im -> 1 <= height im -> 1 <= iw -> 1 <= ih ->
  exists fitted l t r b,
    outcome (ImageOps.fit resample im (iw, ih) LANCZOS 0%Q
               ((1 # 2)%Q, (1 # 2)%Q)) = Ok fitted
    /\ resized_from resample im (l, t, r, b) LANCZOS fitted
    /\ (0 <= l /\ 0 <= t /\ r <= inject_Z (width im)
        /\ b <= inject_Z (height im))%Q
    /\ (l + r == inject_Z (width im) /\ t + b == inject_Z (height im))%Q
    /\ ((r - l) * inject_Z ih == (b - t) * inject_Z iw)%Q
    /\ (r - l == inject_Z (width im) \/ b - t == inject_Z (height im))%Q
    /\ (0 < r - l /\ 0 < b - t)%Q.
Proof.
  intros Hm Hw Hh Hiw Hih.
  destruct (fit_crop_center im iw ih Hw Hh Hiw Hih)
    as (l & t & r & b & Hc & Hin & Hmid & Hratio & Htight & Hpos).
  unfold ImageOps.fit. rewrite Hc, bind_ret.
  destruct Hin as (Hl & Ht & Hr & Hb). destruct Hpos as (Hpw & Hph).
  destruct Hmid as (Hmx & Hmy).
  unfold Image.resize.
  destruct ((width im =? iw) && (height im =? ih)
            && Image.box_eqb (l, t, r, b) (Image.full_box im)) eqn:E.
  - exists im, l, t, r, b. split; [reflexivity |].
    rewrite !andb_true_iff in E. destruct E as [_ E].
    repeat apply conj; try assumption. left. split; [reflexivity | exact E].
  - assert (E1 : (iw <? 1) || (ih <? 1) = false)
      by (apply orb_false_iff; split; apply Z.ltb_ge; lia).
    assert (E2 : Qlt_bool l 0 || Qlt_bool t 0 = false)
      by (apply orb_false_iff; split; apply Qlt_bool_false; assumption).
    assert (E3 : Qlt_bool (inject_Z (width im)) r
                 || Qlt_bool (inject_Z (height im)) b = false)
      by (apply orb_false_iff; split; apply Qlt_bool_false; assumption).
    assert (E4 : Qlt_bool (r - l) 0 || Qlt_bool (b - t) 0 = false)
      by (apply orb_false_iff; split; apply Qlt_bool_false; lra).
    rewrite E1, E2, E3, E4. rewrite Hm. cbn.
    eexists _, l, t, r, b. split; [reflexivity |].
    repeat apply conj; try assumption. right. intros x y.
    unfold size, width, height. cbn [xsize ysize rgbdata].
    rewrite !Z2N.id by lia. reflexivity.
Qed.

(** *** The whole of [resize_canvas] *)

Lemma rgb_has_no_alpha im : mode im = "RGB" -> has_alpha_band im = false.
Proof. intros H. unfold has_alpha_band, getbands. now rewrite H. Qed.

Lemma fit_to_box_Ok flat iw ih fit :
  fit = "contain" \/ fit = "cover" ->
  mode flat = "RGB" ->
  1 <= width flat -> 1 <= height flat -> 1 <= iw -> 1 <= ih ->
  (fit = "contain" ->
   width flat < 2 * height flat * iw /\ height flat < 2 * width flat * ih) ->
  exists fitted, outcome (fit_to_box resample flat (iw, ih) fit) = Ok fitted.
Proof.
  intros Hfit Hm Hw Hh Hiw Hih Hthin. unfold fit_to_box.
  destruct Hfit as [-> | ->]; cbn [String.eqb Ascii.eqb Bool.eqb].
  - destruct (Hthin eq_refl) as [H1 H2].
    now apply contain_Ok.
  - destruct (fit_Ok flat iw ih Hm Hw Hh Hiw Hih)
      as (fitted & l & t & r & b & H & _).
    now exists fitted.
Qed.

Lemma resize_canvas_returns im tw th fit bg margin :
  fit = "contain" \/ fit = "cover" ->
  0 <= tw -> 0 <= th -> 1 <= width im -> 1 <= height im ->
  (fit = "contain" ->
   width im < 2 * height im * Z.max 1 (tw - 2 * margin)
   /\ height im < 2 * width im * Z.max 1 (th - 2 * margin)) ->
  exists canvas,
    outcome (resize_canvas resample im tw th fit bg margin) = Ok canvas.
Proof.
  intros Hfit Htw Hth Hw Hh Hthin. rewrite resize_canvas_steps.
  destruct (flatten_Ok im bg) as (flat & Hflat & Hm & Hx & Hy & _).
  assert (Ew : width flat = width im) by (unfold width; now rewrite Hx).
  assert (Eh : height flat = height im) by (unfold height; now rewrite Hy).
  rewrite (outcome_bind _ _ _ Hflat).
  destruct (fit_to_box_Ok flat (Z.max 1 (tw - 2 * margin))
              (Z.max 1 (th - 2 * margin)) fit Hfit Hm)
    as (fitted & Hfitted); try lia.
  { rewrite Ew, Eh. exact Hthin. }
  rewrite (outcome_bind _ _ _ Hfitted).
  destruct (place_Ok fitted tw th bg Htw Hth) as (canvas & Hc).
  exists canvas. now rewrite Hc.
Qed.

(** C1: for a fit mode in {contain, cover}, a target of at least 1x1 and
    a margin with [2 * margin < min target_w target_h], the image returned
    by [resize_canvas] has width exactly [target_w], height exactly
    [target_h] and is an opaque RGB image with no alpha band, whatever
    the size, mode or transparency of the source; and an image is
    returned for every source of at least one pixel (in contain mode:
    whose scaled sides do not round to zero). *)
Theorem resize_canvas_exact_size im tw th fit bg margin :
  fit = "contain" \/ fit = "cover" ->
  1 <= tw -> 1 <= th -> 2 * margin < Z.min tw th ->
  (forall canvas,
      outcome (resize_canvas resample im tw th fit bg margin) = Ok canvas ->
      width canvas = tw /\ height canvas = th
      /\ mode canvas = "RGB" /\ has_alpha_band canvas = false
      /\ (forall x y, alphadata canvas x y = 255))
  /\ (1 <= width im -> 1 <= height im ->
      (fit = "contain" ->
       width im < 2 * height im * (tw - 2 * margin)
       /\ height im < 2 * width im * (th - 2 * margin)) ->
      exists canvas,
        outcome (resize_canvas resample im tw th fit bg margin)
          = Ok canvas).
Proof.
  intros Hfit Htw Hth Hmargin. split.
  - intros canvas H.
    destruct (resize_canvas_shape _ _ _ _ _ _ _ H) as (Hw & Hh & Hm & Ha).
    repeat apply conj; try assumption. now apply rgb_has_no_alpha.
  - intros Hw Hh Hthin.
    apply resize_canvas_returns; try assumption; try lia.
    intros Hc. rewrite !Z.max_r by lia. auto.
Qed.


Lemma place_pixels fitted tw th bg canvas :
  outcome (place fitted tw th bg) = Ok canvas ->
  forall px py,
    getpixel canvas px py =
      if in_bounds canvas px py then
        Some (if in_rect ((tw - width fitted) / 2) ((th - height fitted) / 2)
                   (width fitted) (height fitted) px py
              then rgbdata fitted (px - (tw - width fitted) / 2)
                                  (py - (th - height fitted) / 2)
              else bg)
      else None.
Proof.
  intros H px py. apply place_inv in H.
  destruct H as (_ & _ & Hw & Hh & _ & _ & Hpix).
  unfold getpixel. destruct (in_bounds canvas px py) eqn:E; [| reflexivity].
  rewrite Hpix. cbv zeta. unfold in_rect.
  unfold in_bounds in E. rewrite Hw, Hh in E. rewrite E.
  now rewrite andb_true_r.
Qed.

(** C6: [resize_canvas] fits the source into the box
    [(max 1 (target_w - 2*margin), max 1 (target_h - 2*margin))]; both
    sides of the box are at least 1, and a side collapses to 1 when the
    margins leave nothing. *)
Theorem inner_box_formula im tw th fit bg margin :
  resize_canvas resample im tw th fit bg margin =
    (flat <- flatten im bg ;;
     fitted <- fit_to_box resample flat
                 (Z.max 1 (tw - 2 * margin), Z.max 1 (th - 2 * margin))
                 fit ;;
     place fitted tw th bg)
  /\ Z.max 1 (tw - 2 * margin)
     = (if tw - 2 * margin <=? 1 then 1 else tw - 2 * margin)
  /\ Z.max 1 (th - 2 * margin)
     = (if th - 2 * margin <=? 1 then 1 else th - 2 * margin).
Proof.
  split; [apply resize_canvas_steps |].
  split.
  - destruct (tw - 2 * margin <=? 1) eqn:E;
      [apply Z.leb_le in E | apply Z.leb_gt in E]; lia.
  - destruct (th - 2 * margin <=? 1) eqn:E;
      [apply Z.leb_le in E | apply Z.leb_gt in E]; lia.
Qed.

(** C7: the fitted image, whichever mode produced it, is pasted at
    [x = (target_w - fitted_w) // 2], [y = (target_h - fitted_h) // 2];
    the division is the floor, so the gap on the right (bottom) exceeds
    the one on the left (top) by the parity of the difference. *)
Theorem paste_centered_floor im tw th fit bg margin flat fitted :
  outcome (flatten im bg) = Ok flat ->
  outcome (fit_to_box resample flat
             (Z.max 1 (tw - 2 * margin), Z.max 1 (th - 2 * margin)) fit)
    = Ok fitted ->
  0 <= tw -> 0 <= th ->
  let x := (tw - width fitted) / 2 in
  let y := (th - height fitted) / 2 in
  exists canvas,
    outcome (resize_canvas resample im tw th fit bg margin) = Ok canvas
    /\ log (resize_canvas resample im tw th fit bg margin)
       = log (flatten im bg)
         ++ log (fit_to_box resample flat
                   (Z.max 1 (tw - 2 * margin), Z.max 1 (th - 2 * margin))
                   fit)
         ++ [Allocated tw th; Pasted x y]
    /\ (forall px py,
          getpixel canvas px py =
            if in_bounds canvas px py then
              Some (if in_rect x y (width fitted) (height fitted) px py
                    then rgbdata fitted (px - x) (py - y)
                    else bg)
            else None)
    /\ (tw - width fitted - x) - x = (tw - width fitted) mod 2
    /\ (th - height fitted - y) - y = (th - height fitted) mod 2.
Proof.
  intros Hflat Hfit Htw Hth x y.
  destruct (place_Ok fitted tw th bg Htw Hth) as (canvas & Hc).
  exists canvas. rewrite resize_canvas_steps.
  rewrite (bind_Ok _ _ _ Hflat). cbn [outcome log fst snd].
  rewrite (bind_Ok _ _ _ Hfit). cbn [outcome log fst snd].
  rewrite Hc. cbn [outcome log fst snd].
  repeat apply conj; try reflexivity.
  - apply place_pixels. now rewrite Hc.
  - subst x. pose proof (Z.div_mod (tw - width fitted) 2 ltac:(lia)). lia.
  - subst y. pose proof (Z.div_mod (th - height fitted) 2 ltac:(lia)). lia.
Qed.



Lemma fit_to_box_mode flat box fit fitted :
  outcome (fit_to_box resample flat box fit) = Ok fitted ->
  fit = "contain" \/ fit = "cover".
Proof.
  unfold fit_to_box.
  destruct (fit =? "contain")%string eqn:E1.
  - apply String.eqb_eq in E1. auto.
  - destruct (fit =? "cover")%string eqn:E2; [| discriminate].
    apply String.eqb_eq in E2. auto.
Qed.

(** C10 (as amended): no margin is rejected, and whatever the margin a
    returned canvas has exactly the target size.  With a negative margin
    the inner box exceeds the target on both axes; the fitted image is
    pasted at offset [margin] on both axes in cover mode and on the axis
    where it meets the inner box in contain mode, and only the part of it
    that lies on the canvas is kept. *)
Theorem negative_margin_clipped im tw th fit bg margin :
  (forall canvas,
      outcome (resize_canvas resample im tw th fit bg margin) = Ok canvas ->
      width canvas = tw /\ height canvas = th
      /\ (margin < 0 ->
          exists flat fitted,
            outcome (flatten im bg) = Ok flat
            /\ outcome (fit_to_box resample flat
                          (Z.max 1 (tw - 2 * margin),
                           Z.max 1 (th - 2 * margin)) fit) = Ok fitted
            /\ tw < Z.max 1 (tw - 2 * margin)
            /\ th < Z.max 1 (th - 2 * margin)
            /\ (fit = "cover" ->
                (tw - width fitted) / 2 = margin
                /\ (th - height fitted) / 2 = margin)
            /\ ((tw - width fitted) / 2 = margin
                \/ (th - height fitted) / 2 = margin)
            /\ (forall px py,
                  getpixel canvas px py =
                    if in_bounds canvas px py then
                      Some (if in_rect ((tw - width fitted) / 2)
                                 ((th - height fitted) / 2)
                                 (width fitted) (height fitted) px py
                            then rgbdata fitted
                                   (px - (tw - width fitted) / 2)
                                   (py - (th - height fitted) / 2)
                            else bg)
                    else None)))
  /\ (fit = "contain" \/ fit = "cover" ->
      0 <= tw -> 0 <= th -> 1 <= width im -> 1 <= height im ->
      (fit = "contain" ->
       width im < 2 * height im * Z.max 1 (tw - 2 * margin)
       /\ height im < 2 * width im * Z.max 1 (th - 2 * margin)) ->
      exists canvas,
        outcome (resize_canvas resample im tw th fit bg margin)
          = Ok canvas).
Proof.
  split; [| apply resize_canvas_returns].
  intros canvas H.
  destruct (resize_canvas_shape _ _ _ _ _ _ _ H) as (Hw & Hh & _).
  split; [assumption |]. split; [assumption |]. intros Hneg.
  rewrite resize_canvas_steps in H.
  apply outcome_bind_Ok in H. destruct H as (flat & Hflat & H).
  apply outcome_bind_Ok in H. destruct H as (fitted & Hfit & H).
  exists flat, fitted.
  pose proof (place_inv _ _ _ _ _ H) as (Htw & Hth & _).
  assert (Ew : Z.max 1 (tw - 2 * margin) = tw - 2 * margin) by lia.
  assert (Eh : Z.max 1 (th - 2 * margin) = th - 2 * margin) by lia.
  assert (Cw : forall f, width f = tw - 2 * margin ->
                         (tw - width f) / 2 = margin).
  { intros f ->. replace (tw - (tw - 2 * margin)) with (2 * margin) by lia.
    apply half_two. }
  assert (Ch : forall f, height f = th - 2 * margin ->
                         (th - height f) / 2 = margin).
  { intros f ->. replace (th - (th - 2 * margin)) with (2 * margin) by lia.
    apply half_two. }
  repeat apply conj; try assumption; try lia.
  - intros ->. unfold fit_to_box in Hfit.
    cbn [String.eqb Ascii.eqb Bool.eqb] in Hfit.
    destruct (fit_size _ _ _ _ _ _ _ Hfit) as (E1 & E2 & _).
    rewrite Ew in E1. rewrite Eh in E2. auto.
  - destruct (fit_to_box_mode _ _ _ _ Hfit) as [-> | ->];
      unfold fit_to_box in Hfit; cbn [String.eqb Ascii.eqb Bool.eqb] in Hfit.
    + apply contain_inv in Hfit; try lia.
      destruct Hfit as (_ & _ & _ & Hnear & _).
      rewrite Ew, Eh in Hnear.
      destruct Hnear as [[E _] | [E _]]; [left | right]; auto.
    + destruct (fit_size _ _ _ _ _ _ _ Hfit) as (E1 & E2 & _).
      rewrite Ew in E1. left. auto.
  - now apply place_pixels.
Qed.

(** C5 (as amended): a source in mode RGBA or LA, or in mode P with a
    declared transparency, is composited over the background with its
    alpha band as mask.  The flattened image is RGB with no alpha band
    and of the size of the source; it is the background wherever the
    source is fully transparent, the source colour wherever it is fully
    opaque, and Pillow's blend of the two elsewhere.  The final canvas
    has no alpha band and is the background everywhere outside the
    pasted image. *)
Theorem flatten_over_background im bg :
  mode im = "RGBA" \/ mode im = "LA"
  \/ (mode im = "P" /\ transparency im = true) ->
  is_color bg ->
  exists flat,
    outcome (flatten im bg) = Ok flat
    /\ mode flat = "RGB" /\ has_alpha_band flat = false
    /\ size flat = size im
    /\ (forall x y, in_bounds im x y = true ->
          getpixel flat x y
            = Some (Image.blend_rgb (alphadata im x y) bg (rgbdata im x y)))
    /\ (forall x y, in_bounds im x y = true -> alphadata im x y = 0 ->
          getpixel flat x y = Some bg)
    /\ (forall x y, in_bounds im x y = true -> alphadata im x y = 255 ->
          is_color (rgbdata im x y) ->
          getpixel flat x y = Some (rgbdata im x y))
    /\ (forall tw th fit margin canvas,
          outcome (resize_canvas resample im tw th fit bg margin)
            = Ok canvas ->
          mode canvas = "RGB" /\ has_alpha_band canvas = false
          /\ exists fitted,
               outcome (fit_to_box resample flat
                          (Z.max 1 (tw - 2 * margin),
                           Z.max 1 (th - 2 * margin)) fit) = Ok fitted
               /\ forall px py,
                    in_bounds canvas px py = true ->
                    in_rect ((tw - width fitted) / 2)
                      ((th - height fitted) / 2)
                      (width fitted) (height fitted) px py = false ->
                    getpixel canvas px py = Some bg).
Proof.
  intros Hmode Hbg.
  assert (Hwf : wants_flattening im = true).
  { unfold wants_flattening.
    destruct Hmode as [-> | [-> | [-> ->]]]; reflexivity. }
  destruct (flatten_alpha im bg Hwf)
    as (flat & Hflat & Hm & Hx & Hy & _ & Hpix & _).
  exists flat.
  assert (Hin : forall x y, in_bounds flat x y = in_bounds im x y).
  { intros x y. unfold in_bounds, width, height. now rewrite Hx, Hy. }
  assert (Hget : forall x y, in_bounds im x y = true ->
            getpixel flat x y
              = Some (Image.blend_rgb (alphadata im x y) bg
                        (rgbdata im x y))).
  { intros x y Hb. unfold getpixel. rewrite Hin, Hb. now rewrite Hpix. }
  rewrite Hflat. cbn [outcome snd].
  repeat apply conj; try reflexivity; try assumption.
  - now apply rgb_has_no_alpha.
  - unfold size, width, height. now rewrite Hx, Hy.
  - intros x y Hb Ha. rewrite (Hget x y Hb), Ha.
    now rewrite blend_rgb_transparent.
  - intros x y Hb Ha Hc. rewrite (Hget x y Hb), Ha.
    now rewrite blend_rgb_opaque.
  - intros tw th fit margin canvas H.
    destruct (resize_canvas_shape _ _ _ _ _ _ _ H) as (_ & _ & Hcm & _).
    split; [assumption |]. split; [now apply rgb_has_no_alpha |].
    rewrite resize_canvas_steps in H.
    apply outcome_bind_Ok in H. destruct H as (flat' & Hflat' & H).
    rewrite Hflat in Hflat'. cbn [outcome snd] in Hflat'.
    injection Hflat' as <-.
    apply outcome_bind_Ok in H. destruct H as (fitted & Hfit & H).
    exists fitted. split; [assumption |].
    intros px py Hb Hr. rewrite (place_pixels _ _ _ _ _ H).
    now rewrite Hb, Hr.
Qed.

Lemma flatten_log im bg :
  log (flatten im bg) =
    if wants_flattening im
    then [Allocated (width im) (height im); Converted "RGBA";
          Converted "RGBA"; Pasted 0 0]
    else [Converted "RGB"].
Proof.
  destruct (wants_flattening im) eqn:E.
  - destruct (flatten_alpha im bg E) as (flat & -> & _). reflexivity.
  - now rewrite (flatten_opaque im bg E).
Qed.


End Canvas.

(** ** The command *)

Section Command.

Variable resample :
  Resampling -> Image -> Box -> Z * Z -> Z -> Z -> rgb * Z.
Variable getrgb : string -> option rgb.



(** [main] once the parameters have been read. *)
Lemma main_valid fs o c :
  is_None (opt_width o) = is_None (opt_height o) ->
  getrgb (bg o) = Some c ->
  main resample getrgb fs o =
    (let imgs := find_images fs (paths o) in
     (match imgs with
      | [] => emit (Printed MsgNoImages) ;;; raise (Exit 1)
      | _ :: _ => ret tt
      end) ;;;
     emit (Printed (MsgSummary (List.length imgs) (fst (target o))
                      (snd (target o)) (fit o) (margin o) (bg o))) ;;;
     normalized <- normalize_all resample fs imgs (fst (target o))
                     (snd (target o)) (fit o) c (margin o) ;;
     (match export_dir o with
      | Some dir => emit (MadeDir dir) ;;; export_slides dir 1 normalized
      | None => ret tt
      end) ;;;
     match normalized with
     | first :: rest =>
         emit (Saved (output o) "PDF" (first :: rest)) ;;;
         emit (Printed (MsgSaved (output o)))
     | [] => raise IndexError
     end).
Proof.
  intros Hwh Hc. unfold main, hex_to_rgb, target. rewrite Hc.
  destruct (opt_width o), (opt_height o), (square o); try discriminate;
    cbn [is_None xorb]; rewrite !bind_ret; reflexivity.
Qed.

Lemma main_invalid fs o :
  is_None (opt_width o) <> is_None (opt_height o)
  \/ getrgb (bg o) = None ->
  exists msg, main resample getrgb fs o = ([], Raise (BadParameter msg)).
Proof.
  intros [H | H]; unfold main, hex_to_rgb.
  - destruct (opt_width o), (opt_height o); cbn [is_None] in H;
      try congruence; cbn; eexists; reflexivity.
  - rewrite H.
    destruct (opt_width o), (opt_height o); cbn; try destruct (square o);
      eexists; reflexivity.
Qed.

Lemma main_cases o :
  (is_None (opt_width o) = is_None (opt_height o)
   /\ exists c, getrgb (bg o) = Some c)
  \/ (is_None (opt_width o) <> is_None (opt_height o)
      \/ getrgb (bg o) = None).
Proof.
  destruct (bool_dec (is_None (opt_width o)) (is_None (opt_height o)));
    [| now right; left].
  destruct (getrgb (bg o)) as [c |] eqn:E; [left | right; right]; eauto.
Qed.

(** C9: when discovery finds no file, the run ends with a non-zero
    status and writes nothing; with well-formed parameters, so that
    discovery is reached, it prints "No images found." and exits with
    code 1. *)
Theorem no_images_exit_1 fs o :
  find_images fs (paths o) = [] ->
  exit_status (outcome (main resample getrgb fs o)) <> 0
  /\ existsb is_saved (log (main resample getrgb fs o)) = false
  /\ (is_None (opt_width o) = is_None (opt_height o) ->
      getrgb (bg o) <> None ->
      main resample getrgb fs o
        = ([Printed MsgNoImages], Raise (Exit 1))).
Proof.
  intros Hfind.
  assert (Hv : forall c, is_None (opt_width o) = is_None (opt_height o) ->
                getrgb (bg o) = Some c ->
                main resample getrgb fs o
                  = ([Printed MsgNoImages], Raise (Exit 1))).
  { intros c Hwh Hc. rewrite (main_valid fs o c Hwh Hc), Hfind.
    reflexivity. }
  destruct (main_cases o) as [[Hwh [c Hc]] | Hbad].
  - rewrite (Hv c Hwh Hc). cbn. repeat split; try discriminate; auto.
  - destruct (main_invalid fs o Hbad) as [msg ->]. cbn.
    repeat split; try discriminate.
    intros Hwh Hc. destruct Hbad as [Hbad | Hbad]; contradiction.
Qed.


End Command.

(** ** Discovery *)

Section Discovery.

Context {A : Type} (keyf : A -> string).

Lemma insert_last_perm (x : A) (l : list A) :
  Permutation (natsort.insert_last keyf x l) (x :: l).
Proof.
  induction l as [| y l IH]; cbn [natsort.insert_last]; [reflexivity |].
  destruct (natsort.key_leb _ _); [| reflexivity].
  rewrite IH. apply perm_swap.
Qed.

Lemma natsorted_perm (l : list A) :
  Permutation (natsort.natsorted keyf l) l.
Proof.
  unfold natsort.natsorted.
  assert (G : forall acc,
             Permutation
               (fold_left (fun acc x => natsort.insert_last keyf x acc)
                  l acc) (acc ++ l)).
  { induction l as [| x l IH]; intros acc; cbn [fold_left].
    - now rewrite app_nil_r.
    - rewrite IH, insert_last_perm. cbn [app].
      apply Permutation_middle. }
  exact (G []).
Qed.

End Discovery.

Lemma glob_In fs d ext p :
  In p (glob fs d ("**/*" ++ ext)%string) <->
  (exists e, In (p, e) fs)
  /\ below d p = true /\ endswith (name p) ext = true.
Proof.
  unfold glob. cbn [String.append strip_prefix Ascii.eqb Bool.eqb].
  rewrite in_map_iff. split.
  - intros [[q e] [<- H]]. apply filter_In in H. destruct H as [H1 H2].
    cbn [fst] in *. apply andb_true_iff in H2. split; [eauto | assumption].
  - intros [[e He] [H1 H2]]. exists (p, e). split; [reflexivity |].
    apply filter_In. split; [assumption |]. cbn [fst]. now rewrite H1, H2.
Qed.

(** What [find_images] accepts: below a directory argument, the entries
    whose name ends, case for case, with one of the extensions; among the
    other arguments, the files whose lower-cased suffix is one of them. *)
Lemma find_images_In fs paths p :
  In p (find_images fs paths) <->
  exists q, In q paths
    /\ ((is_dir fs q = true
         /\ exists ext, In ext IMAGE_EXTS
              /\ (exists e, In (p, e) fs)
              /\ below q p = true /\ endswith (name p) ext = true)
        \/ (is_dir fs q = false /\ q = p /\ is_file fs p = true
            /\ in_exts (lower (suffix p)) = true)).
Proof.
  unfold find_images.
  rewrite (Permutation_in' (x := p) eq_refl (natsorted_perm name _)).
  rewrite in_flat_map. split.
  - intros [q [Hq H]]. exists q. split; [assumption |].
    destruct (is_dir fs q) eqn:Ed.
    + left. split; [reflexivity |]. apply in_flat_map in H.
      destruct H as [ext [He H]]. exists ext. split; [assumption |].
      now apply glob_In.
    + right. destruct (is_file fs q && in_exts (lower (suffix q))) eqn:Ef;
        [| destruct H].
      destruct H as [<- | []]. apply andb_true_iff in Ef.
      destruct Ef. auto.
  - intros [q [Hq [[Ed [ext [He H]]] | [Ed [<- [Hf Hx]]]]]]; exists q;
      (split; [assumption |]); rewrite Ed.
    + apply in_flat_map. exists ext. split; [assumption |].
      now apply glob_In.
    + rewrite Hf, Hx. now left.
Qed.

(** The natural order of the names of the slides. *)
Example natsorted_slides :
  natsort.natsorted (fun s => s) ["slide10.png"; "slide2.png"; "slide1.png"]
  = ["slide1.png"; "slide2.png"; "slide10.png"].
Proof. reflexivity. Qed.

(** C8 at its failing input: a picture named [PHOTO.PNG] is accepted when
    it is given as an argument and missed when its directory is. *)
Theorem upper_case_extension_missed_in_directory :
  find_images Sample.shots [["shots"; "PHOTO.PNG"]] = [["shots"; "PHOTO.PNG"]]
  /\ find_images Sample.shots [["shots"]] = [].
Proof. split; reflexivity. Qed.

(** ** The properties at concrete inputs *)

(** The spec's scenario: a 2000x1000 landscape picture on a 1080x1350 page,
    contain mode, white background, no margin. *)
Example landscape_letterboxed :
  exists canvas,
    resize_canvas Sample.nearest Sample.landscape 1080 1350 "contain"
      Sample.white 0
    = ([Converted "RGB"; Resized 1080 540; Allocated 1080 1350; Pasted 0 405],
       Ok canvas)
    /\ getpixel canvas 0 0 = Some Sample.white
    /\ getpixel canvas 0 404 = Some Sample.white
    /\ getpixel canvas 0 405 = Some (90, 90, 90)
    /\ getpixel canvas 1079 944 = Some (90, 90, 90)
    /\ getpixel canvas 1079 945 = Some Sample.white.
Proof. eexists. repeat split; reflexivity. Qed.

(** A source so thin that its scaled height rounds to zero: Pillow's resize
    refuses it, and [resize_canvas] returns nothing in contain mode. *)
Example thin_strip_is_refused :
  resize_canvas Sample.nearest Sample.strip 100 100 "contain" Sample.white 0
  = ([Converted "RGB"], Raise (ValueError "height and width must be > 0")).
Proof. reflexivity. Qed.

(** C1 at the spec's scenario. *)
Lemma resize_canvas_exact_size_witness :
  exists canvas,
    outcome (resize_canvas Sample.nearest Sample.landscape 1080 1350
               "contain" Sample.white 0) = Ok canvas
    /\ size canvas = (1080, 1350) /\ mode canvas = "RGB".
Proof.
  destruct (resize_canvas_exact_size Sample.nearest Sample.landscape
              1080 1350 "contain" Sample.white 0) as [Hall Hex].
  - left; reflexivity.
  - lia.
  - lia.
  - simpl; lia.
  - destruct Hex as [canvas Hc].
    + change (1 <= 2000). lia.
    + change (1 <= 1000). lia.
    + intros _. change (2000 < 2 * 1000 * 1080 /\ 1000 < 2 * 2000 * 1350).
      lia.
    + exists canvas. destruct (Hall canvas Hc) as (Hw & Hh & Hm & _).
      unfold size. rewrite Hw, Hh. auto.
Defined.





(** C5, refuted as stated: the only pixel of a 1x1 picture that is black at
    alpha 128 lies outside any opaque region, and the output there is a
    mid grey, not the white background. *)
Lemma veiled_pixel_is_blended :
  exists canvas,
    outcome (resize_canvas Sample.nearest Sample.veil 1 1 "contain"
               Sample.white 0) = Ok canvas
    /\ has_alpha_band Sample.veil = true
    /\ alphadata Sample.veil 0 0 <> 255
    /\ getpixel canvas 0 0 = Some (127, 127, 127)
    /\ getpixel canvas 0 0 <> Some Sample.white.
Proof.
  eexists. split; [reflexivity |].
  repeat split; try reflexivity; discriminate.
Qed.

(** C5 as amended, for a picture that is half opaque and half clear. *)
Lemma flatten_over_background_witness :
  exists flat,
    outcome (flatten Sample.half_clear Sample.white) = Ok flat
    /\ getpixel flat 0 0 = Some (200, 0, 0)
    /\ getpixel flat 3 1 = Some Sample.white.
Proof.
  destruct (flatten_over_background Sample.nearest Sample.half_clear
              Sample.white)
    as (flat & Hf & _ & _ & _ & _ & Hclear & Hsolid & _).
  - left; reflexivity.
  - cbn. lia.
  - exists flat. split; [exact Hf |]. split.
    + apply (Hsolid 0 0); try reflexivity. cbn. lia.
    + apply (Hclear 3 1); reflexivity.
Defined.

(** C7 at the spec's scenario. *)
Lemma paste_centered_floor_witness :
  exists fitted canvas,
    outcome (fit_to_box Sample.nearest Sample.flat_landscape (1080, 1350)
               "contain") = Ok fitted
    /\ outcome (resize_canvas Sample.nearest Sample.landscape 1080 1350
                  "contain" Sample.white 0) = Ok canvas
    /\ (1350 - height fitted - (1350 - height fitted) / 2)
       - (1350 - height fitted) / 2 = (1350 - height fitted) mod 2.
Proof.
  destruct (outcome (fit_to_box Sample.nearest Sample.flat_landscape
                       (1080, 1350) "contain")) as [fitted |] eqn:Hf;
    [| discriminate Hf ].
  destruct (paste_centered_floor Sample.nearest Sample.landscape 1080 1350
              "contain" Sample.white 0 Sample.flat_landscape fitted
              eq_refl Hf ltac:(lia) ltac:(lia))
    as (canvas & Hc & _ & _ & _ & Hy).
  exists fitted, canvas. repeat split; [exact Hc | exact Hy].
Defined.

(** C9 for an empty directory. *)
Lemma no_images_exit_1_witness :
  main Sample.nearest Sample.getrgb_hex Sample.empty_dir
    (Sample.options [["empty"]] "contain")
  = ([Printed MsgNoImages], Raise (Exit 1)).
Proof.
  destruct (no_images_exit_1 Sample.nearest Sample.getrgb_hex
              Sample.empty_dir (Sample.options [["empty"]] "contain")
              eq_refl) as (_ & _ & H).
  apply H; [reflexivity | discriminate].
Defined.

(** C10, refuted as stated: with margin -10 on a 100x100 target, contain
    mode fits a 2000x1000 source to 120x60 and pastes it at (-10, 20); the
    vertical offset is not negative. *)
Lemma contain_offset_not_negative :
  log (resize_canvas Sample.nearest Sample.landscape 100 100 "contain"
         Sample.white (-10))
  = [Converted "RGB"; Resized 120 60; Allocated 100 100; Pasted (-10) 20]
  /\ ~ (-10 < 0 /\ 20 < 0).
Proof. split; [reflexivity | lia]. Qed.

(** C10 as amended, in cover mode with margin -10. *)
Lemma negative_margin_clipped_witness :
  exists canvas,
    outcome (resize_canvas Sample.nearest Sample.landscape 1080 1350 "cover"
               Sample.white (-10)) = Ok canvas
    /\ size canvas = (1080, 1350)
    /\ getpixel canvas 1080 0 = None.
Proof.
  destruct (negative_margin_clipped Sample.nearest Sample.landscape 1080 1350
              "cover" Sample.white (-10)) as [Hall Hex].
  destruct Hex as [canvas Hc].
  - right; reflexivity.
  - lia.
  - lia.
  - change (1 <= 2000). lia.
  - change (1 <= 1000). lia.
  - discriminate.
  - exists canvas. destruct (Hall canvas Hc) as (Hw & Hh & Hneg).
    split; [exact Hc |]. split; [unfold size; now rewrite Hw, Hh |].
    destruct (Hneg ltac:(lia))
      as (flat & fitted & _ & _ & _ & _ & _ & _ & Hpix).
    rewrite Hpix. unfold in_bounds. rewrite Hw, Hh. reflexivity.
Defined.


(** * Further properties *)

(** ** Placement on the canvas *)

Section Placement.

Variable resample :
  Resampling -> Image -> Box -> Z * Z -> Z -> Z -> rgb * Z.

Lemma fitted_within_box flat iw ih fit fitted :
  1 <= iw -> 1 <= ih ->
  outcome (fit_to_box resample flat (iw, ih) fit) = Ok fitted ->
  width fitted <= iw /\ height fitted <= ih
  /\ (fit = "cover" -> width fitted = iw /\ height fitted = ih).
Proof.
  intros Hiw Hih H.
  destruct (fit_to_box_mode resample _ _ _ _ H) as [-> | ->];
    unfold fit_to_box in H; cbn [String.eqb Ascii.eqb Bool.eqb] in H.
  - destruct (contain_inv resample _ _ _ _ _ Hiw Hih H) as (_ & Hw & Hh & _).
    repeat split; try assumption; discriminate.
  - destruct (fit_size resample _ _ _ _ _ _ _ H) as (Hw & Hh & _).
    repeat split; try lia; assumption.
Qed.

Lemma resize_canvas_inv im tw th fit bg margin canvas :
  outcome (resize_canvas resample im tw th fit bg margin) = Ok canvas ->
  exists flat fitted,
    outcome (flatten im bg) = Ok flat
    /\ outcome (fit_to_box resample flat
                  (Z.max 1 (tw - 2 * margin), Z.max 1 (th - 2 * margin)) fit)
       = Ok fitted
    /\ outcome (place fitted tw th bg) = Ok canvas.
Proof.
  rewrite resize_canvas_steps. intros H.
  apply outcome_bind_Ok in H. destruct H as (flat & Hflat & H).
  apply outcome_bind_Ok in H. destruct H as (fitted & Hfit & H).
  exists flat, fitted. auto.
Qed.

(** X11: with a margin that leaves an inner box, the band of [margin]
    pixels along the four sides of the canvas is background, in both
    modes: the fitted image is pasted wholly inside the inner box. *)
Theorem margin_band_is_background im tw th fit bg margin canvas :
  1 <= tw - 2 * margin -> 1 <= th - 2 * margin ->
  outcome (resize_canvas resample im tw th fit bg margin) = Ok canvas ->
  forall px py,
    in_bounds canvas px py = true ->
    px < margin \/ tw - margin <= px \/ py < margin \/ th - margin <= py ->
    getpixel canvas px py = Some bg.
Proof.
  intros Hiw Hih H px py Hin Hband.
  destruct (resize_canvas_inv _ _ _ _ _ _ _ H) as (flat & fitted & _ & Hfit & Hp).
  rewrite !Z.max_r in Hfit by lia.
  destruct (fitted_within_box _ _ _ _ _ Hiw Hih Hfit) as (Hw & Hh & _).
  rewrite (place_pixels _ _ _ _ _ Hp), Hin.
  assert (Hnw : 0 <= width fitted) by (unfold width; lia).
  assert (Hnh : 0 <= height fitted) by (unfold height; lia).
  pose proof (Z.div_mod (tw - width fitted) 2 ltac:(lia)) as Dx.
  pose proof (Z.mod_pos_bound (tw - width fitted) 2 ltac:(lia)) as Bx.
  pose proof (Z.div_mod (th - height fitted) 2 ltac:(lia)) as Dy.
  pose proof (Z.mod_pos_bound (th - height fitted) 2 ltac:(lia)) as By.
  set (x := (tw - width fitted) / 2) in *.
  set (y := (th - height fitted) / 2) in *.
  assert (E : in_rect x y (width fitted) (height fitted) px py = false).
  { unfold in_rect. rewrite !andb_false_iff, !Z.leb_gt, !Z.ltb_ge.
    clearbody x y. lia. }
  now rewrite E.
Qed.

(** X12: in cover mode, with a non-negative margin that leaves an inner box,
    every pixel of the inner box shows the fitted image: no background is
    left inside the margins. *)
Theorem cover_leaves_no_background im tw th bg margin canvas :
  0 <= margin -> 1 <= tw - 2 * margin -> 1 <= th - 2 * margin ->
  outcome (resize_canvas resample im tw th "cover" bg margin) = Ok canvas ->
  exists flat fitted,
    outcome (flatten im bg) = Ok flat
    /\ outcome (fit_to_box resample flat (tw - 2 * margin, th - 2 * margin)
                  "cover") = Ok fitted
    /\ forall px py,
         margin <= px < tw - margin -> margin <= py < th - margin ->
         getpixel canvas px py
           = Some (rgbdata fitted (px - margin) (py - margin)).
Proof.
  intros Hm Hiw Hih H.
  destruct (resize_canvas_inv _ _ _ _ _ _ _ H)
    as (flat & fitted & Hflat & Hfit & Hp).
  rewrite !Z.max_r in Hfit by lia.
  exists flat, fitted. split; [assumption |]. split; [assumption |].
  destruct (fitted_within_box _ _ _ _ _ Hiw Hih Hfit) as (_ & _ & Heq).
  destruct (Heq eq_refl) as (Ew & Eh).
  destruct (place_inv _ _ _ _ _ Hp) as (_ & _ & Cw & Ch & _).
  intros px py Hx Hy. rewrite (place_pixels _ _ _ _ _ Hp).
  assert (Ex : (tw - width fitted) / 2 = margin).
  { rewrite Ew. replace (tw - (tw - 2 * margin)) with (2 * margin) by lia.
    apply half_two. }
  assert (Ey : (th - height fitted) / 2 = margin).
  { rewrite Eh. replace (th - (th - 2 * margin)) with (2 * margin) by lia.
    apply half_two. }
  rewrite Ex, Ey, Ew, Eh.
  assert (E1 : in_bounds canvas px py = true).
  { unfold in_bounds. rewrite Cw, Ch, !andb_true_iff, !Z.leb_le, !Z.ltb_lt.
    lia. }
  assert (E2 : in_rect margin margin (tw - 2 * margin) (th - 2 * margin)
                 px py = true).
  { unfold in_rect. rewrite !andb_true_iff, !Z.leb_le, !Z.ltb_lt. lia. }
  now rewrite E1, E2.
Qed.

(** X16: with a non-negative margin that leaves an inner box, nothing of
    the fitted image is lost when it is pasted: in both modes each of its
    pixels is on the canvas, at the floor-centred offset, which is at
    least [margin]. *)
Theorem fitted_image_fully_visible im tw th fit bg margin canvas :
  0 <= margin -> 1 <= tw - 2 * margin -> 1 <= th - 2 * margin ->
  outcome (resize_canvas resample im tw th fit bg margin) = Ok canvas ->
  exists flat fitted,
    outcome (flatten im bg) = Ok flat
    /\ outcome (fit_to_box resample flat (tw - 2 * margin, th - 2 * margin)
                  fit) = Ok fitted
    /\ margin <= (tw - width fitted) / 2
    /\ margin <= (th - height fitted) / 2
    /\ forall i j,
         in_bounds fitted i j = true ->
         getpixel canvas ((tw - width fitted) / 2 + i)
           ((th - height fitted) / 2 + j)
         = Some (rgbdata fitted i j).
Proof.
  intros Hm Hiw Hih H.
  destruct (resize_canvas_inv _ _ _ _ _ _ _ H)
    as (flat & fitted & Hflat & Hfit & Hp).
  rewrite !Z.max_r in Hfit by lia.
  exists flat, fitted. split; [assumption |]. split; [assumption |].
  destruct (fitted_within_box _ _ _ _ _ Hiw Hih Hfit) as (Hw & Hh & _).
  destruct (place_inv _ _ _ _ _ Hp) as (_ & _ & Cw & Ch & _).
  pose proof (Z.div_mod (tw - width fitted) 2 ltac:(lia)) as Dx.
  pose proof (Z.mod_pos_bound (tw - width fitted) 2 ltac:(lia)) as Bx.
  pose proof (Z.div_mod (th - height fitted) 2 ltac:(lia)) as Dy.
  pose proof (Z.mod_pos_bound (th - height fitted) 2 ltac:(lia)) as By.
  set (x := (tw - width fitted) / 2) in *.
  set (y := (th - height fitted) / 2) in *.
  split; [clearbody x y; lia |]. split; [clearbody x y; lia |].
  intros i j Hin. rewrite (place_pixels _ _ _ _ _ Hp).
  fold x y.
  unfold in_bounds in Hin.
  rewrite !andb_true_iff, !Z.leb_le, !Z.ltb_lt in Hin.
  assert (E1 : in_bounds canvas (x + i) (y + j) = true).
  { unfold in_bounds. rewrite Cw, Ch, !andb_true_iff, !Z.leb_le, !Z.ltb_lt.
    clearbody x y. lia. }
  assert (E2 : in_rect x y (width fitted) (height fitted) (x + i) (y + j)
               = true).
  { unfold in_rect. rewrite !andb_true_iff, !Z.leb_le, !Z.ltb_lt.
    clearbody x y. lia. }
  rewrite E1, E2. do 3 f_equal; lia.
Qed.

(** X13: when the margins leave nothing ([target - 2*margin <= 1] on both
    axes) the inner box is a single pixel: no pixel of the returned canvas
    other than the one at the floor centre differs from the background. *)
Theorem collapsed_box_single_pixel im tw th fit bg margin canvas :
  tw - 2 * margin <= 1 -> th - 2 * margin <= 1 ->
  outcome (resize_canvas resample im tw th fit bg margin) = Ok canvas ->
  forall px py,
    in_bounds canvas px py = true ->
    (px, py) <> ((tw - 1) / 2, (th - 1) / 2) ->
    getpixel canvas px py = Some bg.
Proof.
  intros Hiw Hih H px py Hin Hne.
  destruct (resize_canvas_inv _ _ _ _ _ _ _ H) as (flat & fitted & _ & Hfit & Hp).
  rewrite !Z.max_l in Hfit by lia.
  destruct (fitted_within_box flat 1 1 fit fitted ltac:(lia) ltac:(lia) Hfit)
    as (Hw & Hh & _).
  assert (Cw : width fitted = 0 \/ width fitted = 1)
    by (unfold width in *; lia).
  assert (Ch : height fitted = 0 \/ height fitted = 1)
    by (unfold height in *; lia).
  rewrite (place_pixels _ _ _ _ _ Hp), Hin.
  assert (E : in_rect ((tw - width fitted) / 2) ((th - height fitted) / 2)
                (width fitted) (height fitted) px py = false).
  { unfold in_rect. rewrite !andb_false_iff, !Z.leb_gt, !Z.ltb_ge.
    assert (Hxy : px <> (tw - 1) / 2 \/ py <> (th - 1) / 2).
    { destruct (Z.eq_dec px ((tw - 1) / 2)) as [-> | ?]; [| now left].
      destruct (Z.eq_dec py ((th - 1) / 2)) as [-> | ?]; [| now right].
      now contradiction Hne. }
    destruct Cw as [-> | ->], Ch as [-> | ->]; lia. }
  now rewrite E.
Qed.

(** X15: a negative target side is not refused up front: the source is
    flattened and fitted first, and only then does the allocation of the
    canvas raise ValueError; no canvas is ever returned. *)
Theorem negative_target_refused_late im tw th fit bg margin flat fitted :
  tw < 0 \/ th < 0 ->
  outcome (flatten im bg) = Ok flat ->
  outcome (fit_to_box resample flat
             (Z.max 1 (tw - 2 * margin), Z.max 1 (th - 2 * margin)) fit)
    = Ok fitted ->
  resize_canvas resample im tw th fit bg margin
  = (log (flatten im bg)
       ++ log (fit_to_box resample flat
                 (Z.max 1 (tw - 2 * margin), Z.max 1 (th - 2 * margin)) fit),
     Raise (ValueError "Width and height must be >= 0")).
Proof.
  intros Hneg Hflat Hfit. rewrite resize_canvas_steps.
  rewrite (bind_Ok _ _ _ Hflat). cbn [outcome log fst snd].
  rewrite (bind_Ok _ _ _ Hfit). cbn [outcome log fst snd].
  unfold place, Image.new.
  assert (E : (tw <? 0) || (th <? 0) = true).
  { apply orb_true_iff. rewrite !Z.ltb_lt. exact Hneg. }
  rewrite E. cbn. now rewrite !app_nil_r.
Qed.

Lemma contain_size_same im :
  1 <= height im ->
  ImageOps.contain_size im (width im, height im)
  = ret (width im, height im).
Proof.
  intros Hh. pose proof (inject_Z_pos _ Hh) as Qh.
  unfold ImageOps.contain_size. cbn [fst snd].
  rewrite !truediv_Ok by lra. rewrite !bind_lift_Ok.
  now rewrite Qeq_bool_refl.
Qed.

Lemma fit_crop_same im :
  1 <= width im -> 1 <= height im ->
  exists crop,
    ImageOps.fit_crop im (width im, height im) 0%Q ((1 # 2)%Q, (1 # 2)%Q)
    = ret crop
    /\ Image.box_eqb crop (Image.full_box im) = true.
Proof.
  intros Hw Hh.
  destruct (fit_crop_center im (width im) (height im) Hw Hh Hw Hh)
    as (l & t & r & b & Hc & (Hl & Ht & Hr & Hb) & (Hmx & Hmy) & Hratio
        & Htight & (Hpw & Hph)).
  pose proof (inject_Z_pos _ Hw) as Qw. pose proof (inject_Z_pos _ Hh) as Qh.
  exists (l, t, r, b). split; [exact Hc |].
  set (W := inject_Z (width im)) in *. set (H := inject_Z (height im)) in *.
  assert (Ew : (r - l == W)%Q).
  { destruct Htight as [E | E]; [exact E |].
    rewrite E in Hratio. apply (Qmult_inj_r _ _ H); [lra |].
    rewrite Hratio. ring. }
  assert (Eh : (b - t == H)%Q).
  { rewrite Ew in Hratio. apply (Qmult_inj_r _ _ W); [lra |].
    rewrite <- Hratio. ring. }
  unfold Image.box_eqb, Image.full_box. fold W H.
  rewrite !andb_true_iff, !Qeq_bool_iff. repeat split; lra.
Qed.

Lemma fit_to_box_same flat fit :
  fit = "contain" \/ fit = "cover" ->
  mode flat = "RGB" -> 1 <= width flat -> 1 <= height flat ->
  fit_to_box resample flat (width flat, height flat) fit = ret flat.
Proof.
  intros Hfit Hm Hw Hh. unfold fit_to_box.
  destruct Hfit as [-> | ->]; cbn [String.eqb Ascii.eqb Bool.eqb].
  - unfold ImageOps.contain.
    rewrite (contain_size_same flat Hh), bind_ret.
    rewrite (resize_full resample flat _ _ BICUBIC Hm).
    now rewrite !Z.eqb_refl.
  - unfold ImageOps.fit.
    destruct (fit_crop_same flat Hw Hh) as ([[[l t] r] b] & -> & Hbox).
    rewrite bind_ret. unfold Image.resize.
    now rewrite !Z.eqb_refl, Hbox.
Qed.

(** X14: a source that already has the size of the inner box is not
    resampled in either mode: the canvas is allocated, the flattened source
    is pasted at the floor-centred offset, and every canvas pixel under it
    is the corresponding pixel of the flattened source (the source itself
    when it has no transparency). *)
Theorem exact_fit_is_copied im tw th fit bg margin :
  fit = "contain" \/ fit = "cover" ->
  0 <= tw -> 0 <= th -> 1 <= width im -> 1 <= height im ->
  width im = Z.max 1 (tw - 2 * margin) ->
  height im = Z.max 1 (th - 2 * margin) ->
  let x := (tw - width im) / 2 in
  let y := (th - height im) / 2 in
  exists flat canvas,
    outcome (flatten im bg) = Ok flat
    /\ resize_canvas resample im tw th fit bg margin
       = (log (flatten im bg) ++ [Allocated tw th; Pasted x y], Ok canvas)
    /\ (forall px py,
          in_bounds canvas px py = true ->
          in_rect x y (width im) (height im) px py = true ->
          getpixel canvas px py = Some (rgbdata flat (px - x) (py - y)))
    /\ (wants_flattening im = false ->
        forall i j, rgbdata flat i j = rgbdata im i j).
Proof.
  intros Hfit Htw Hth Hw Hh Ew Eh x y.
  destruct (flatten_Ok im bg) as (flat & Hflat & Hm & Hx & Hy & _).
  assert (Fw : width flat = width im) by (unfold width; now rewrite Hx).
  assert (Fh : height flat = height im) by (unfold height; now rewrite Hy).
  destruct (place_Ok flat tw th bg Htw Hth) as (canvas & Hc).
  exists flat, canvas. split; [exact Hflat |].
  assert (Hp : outcome (place flat tw th bg) = Ok canvas) by now rewrite Hc.
  repeat apply conj.
  - rewrite resize_canvas_steps, (bind_Ok _ _ _ Hflat).
    cbn [outcome log fst snd]. rewrite <- Ew, <- Eh, <- Fw, <- Fh.
    rewrite (fit_to_box_same flat fit Hfit Hm) by lia.
    rewrite bind_ret, Hc. cbn [outcome log fst snd].
    subst x y. now rewrite <- Fw, <- Fh.
  - intros px py Hin Hr. rewrite (place_pixels _ _ _ _ _ Hp), Hin.
    rewrite Fw, Fh. fold x y. now rewrite Hr.
  - intros Hopaque i j. rewrite (flatten_opaque im bg Hopaque) in Hflat.
    cbn in Hflat. injection Hflat as <-. reflexivity.
Qed.

End Placement.


(** ** The effects of a run *)

Lemma log_bind_all {A B} (P : event -> bool) (m : Run A) (f : A -> Run B) :
  forallb P (log m) = true ->
  (forall a, forallb P (log (f a)) = true) ->
  forallb P (log (bind m f)) = true.
Proof.
  intros Hm Hf. destruct m as [l [a | e]]; unfold bind; [| exact Hm].
  specialize (Hf a). destruct (f a) as [l' r]. cbn [log fst] in *.
  rewrite forallb_app. now rewrite Hm, Hf.
Qed.

Lemma log_bind_eq {A B} (m : Run A) (f : A -> Run B) :
  log (bind m f)
  = log m ++ match outcome m with Ok a => log (f a) | Raise _ => [] end.
Proof.
  destruct m as [l [a | e]]; unfold bind; cbn [log outcome fst snd].
  - now destruct (f a).
  - now rewrite app_nil_r.
Qed.

Lemma outcome_bind_eq {A B} (m : Run A) (f : A -> Run B) :
  outcome (bind m f)
  = match outcome m with Ok a => outcome (f a) | Raise e => Raise e end.
Proof.
  destruct m as [l [a | e]]; unfold bind; cbn [log outcome fst snd];
    [now destruct (f a) | reflexivity].
Qed.

Lemma export_slides_run dir i pages :
  export_slides dir i pages = (export_events dir i pages, Ok tt).
Proof.
  revert i. induction pages as [| pg pages IH]; intros i; [reflexivity |].
  cbn [export_slides]. rewrite IH. reflexivity.
Qed.

Lemma opened_paths_app l1 l2 :
  opened_paths (l1 ++ l2) = opened_paths l1 ++ opened_paths l2.
Proof.
  induction l1 as [| e l1 IH]; [reflexivity |].
  destruct e; cbn [app opened_paths]; rewrite IH; reflexivity.
Qed.

Lemma image_ops_open_nothing l :
  forallb is_image_op l = true ->
  opened_paths l = [] /\ existsb writes l = false.
Proof.
  induction l as [| e l IH]; [now split |].
  cbn [forallb]. rewrite andb_true_iff. intros [He Hl].
  destruct (IH Hl) as [IH1 IH2].
  destruct e; try discriminate; cbn; auto.
Qed.

Section Effects.

Variable resample :
  Resampling -> Image -> Box -> Z * Z -> Z -> Z -> rgb * Z.
Variable getrgb : string -> option rgb.

Lemma resize_log_ops self size method box :
  forallb is_image_op (log (Image.resize resample self size method box))
  = true.
Proof.
  unfold Image.resize.
  destruct (match box with Some b => b | None => Image.full_box self end)
    as [[[b0 b1] b2] b3].
  destruct size as [w h].
  repeat match goal with
         | |- context [if ?c then _ else _] => destruct c
         end; reflexivity.
Qed.

Lemma contain_size_log im size : log (ImageOps.contain_size im size) = [].
Proof.
  unfold ImageOps.contain_size, truediv.
  repeat match goal with
         | |- context [if ?c then _ else _] => destruct c; cbn
         end; reflexivity.
Qed.

Lemma fit_crop_log im size bleed c : log (ImageOps.fit_crop im size bleed c) = [].
Proof.
  unfold ImageOps.fit_crop, truediv. cbv zeta.
  repeat match goal with
         | |- context [if ?c then _ else _] => destruct c; cbn
         end; reflexivity.
Qed.

Lemma fit_to_box_log_ops flat box fit :
  forallb is_image_op (log (fit_to_box resample flat box fit)) = true.
Proof.
  unfold fit_to_box.
  destruct (fit =? "contain")%string; [| destruct (fit =? "cover")%string];
    try reflexivity.
  - unfold ImageOps.contain. apply log_bind_all.
    + now rewrite contain_size_log.
    + intros a. apply resize_log_ops.
  - unfold ImageOps.fit. apply log_bind_all.
    + now rewrite fit_crop_log.
    + intros a. apply resize_log_ops.
Qed.

Lemma place_log_ops fitted tw th bg :
  forallb is_image_op (log (place fitted tw th bg)) = true.
Proof.
  unfold place, Image.new.
  destruct ((tw <? 0) || (th <? 0)); reflexivity.
Qed.

(** [resize_canvas] touches neither the console nor the file system. *)
Lemma resize_canvas_log_ops im tw th fit bg margin :
  forallb is_image_op (log (resize_canvas resample im tw th fit bg margin))
  = true.
Proof.
  rewrite resize_canvas_steps. apply log_bind_all.
  - rewrite flatten_log. now destruct (wants_flattening im).
  - intros flat. apply log_bind_all.
    + apply fit_to_box_log_ops.
    + intros fitted. apply place_log_ops.
Qed.

Lemma no_write_no_pdf l :
  existsb writes l = false -> existsb is_pdf_saved l = false.
Proof.
  induction l as [| ev l IH]; [reflexivity |].
  cbn [existsb]. intros H. apply orb_false_elim in H. destruct H as [H1 H2].
  rewrite (IH H2). destruct ev; try reflexivity. discriminate H1.
Qed.

Lemma open_cases fs p :
  (exists im, lookup fs p = Some (Regular (Some im))
              /\ Image.open fs p = ([Opened p], Ok im))
  \/ (exists e, Image.open fs p = ([Opened p], Raise e))
  \/ (exists e, Image.open fs p = ([], Raise e)).
Proof.
  unfold Image.open.
  destruct (lookup fs p) as [[| [im |]] |]; cbn.
  - right. right. eexists. reflexivity.
  - left. exists im. auto.
  - right. left. eexists. reflexivity.
  - right. right. eexists. reflexivity.
Qed.

Section Loop.

Variables (fs : FS) (tw th : Z) (fit : string) (bg : rgb) (margin : Z).

Let run (imgs : list Path) : Run (list Image) :=
  normalize_all resample fs imgs tw th fit bg margin.

Lemma normalize_all_pages imgs pages :
  outcome (run imgs) = Ok pages ->
  Forall2 (is_page resample fs tw th fit bg margin) imgs pages.
Proof.
  subst run. revert pages.
  induction imgs as [| p rest IH]; intros pages H; cbn [normalize_all] in H.
  - cbn in H. injection H as <-. constructor.
  - apply outcome_bind_Ok in H. destruct H as (im & Hopen & H).
    apply outcome_bind_Ok in H. destruct H as (canvas & Hrc & H).
    apply outcome_bind_Ok in H. destruct H as (normalized & Hrest & H).
    cbn in H. injection H as <-. constructor; [| now apply IH].
    exists im. split; [| exact Hrc].
    destruct (open_cases fs p) as [(im' & Hl & E) | [(e & E) | (e & E)]];
      rewrite E in Hopen; cbn in Hopen; try discriminate.
    injection Hopen as <-. exact Hl.
Qed.

Lemma normalize_all_opened imgs :
  exists n,
    opened_paths (log (run imgs)) = firstn n imgs
    /\ (forall pages, outcome (run imgs) = Ok pages -> n = List.length imgs).
Proof.
  subst run. induction imgs as [| p rest (n & IHo & IHn)].
  - exists 0%nat. split; [reflexivity | auto].
  - cbn [normalize_all].
    destruct (open_cases fs p) as [(im & _ & E) | [(e & E) | (e & E)]].
    + rewrite log_bind_eq, outcome_bind_eq, E. cbn [log outcome fst snd].
      destruct (image_ops_open_nothing _
                  (resize_canvas_log_ops im tw th fit bg margin))
        as [Hnone _].
      rewrite log_bind_eq, outcome_bind_eq.
      destruct (outcome (resize_canvas resample im tw th fit bg margin))
        as [canvas | e] eqn:Hrc.
      * exists (S n). rewrite log_bind_eq, outcome_bind_eq.
        rewrite !opened_paths_app, Hnone.
        destruct (outcome (normalize_all resample fs rest tw th fit bg margin))
          as [normalized | e] eqn:Hrest; cbn [app opened_paths firstn];
          rewrite ?app_nil_r, IHo; split; try reflexivity;
          try discriminate.
        intros pages _. cbn [List.length]. f_equal. now apply (IHn normalized).
      * exists 1%nat. rewrite !opened_paths_app, Hnone.
        split; [reflexivity | discriminate].
    + rewrite log_bind_eq, outcome_bind_eq, E. cbn [log outcome fst snd].
      exists 1%nat. split; [reflexivity | discriminate].
    + rewrite log_bind_eq, outcome_bind_eq, E. cbn [log outcome fst snd].
      exists 0%nat. split; [reflexivity | discriminate].
Qed.

Lemma normalize_all_writes_nothing imgs :
  existsb writes (log (run imgs)) = false.
Proof.
  subst run. induction imgs as [| p rest IH]; [reflexivity |].
  cbn [normalize_all]. rewrite log_bind_eq, existsb_app.
  apply orb_false_iff. split.
  - destruct (open_cases fs p) as [(im & _ & E) | [(e & E) | (e & E)]];
      now rewrite E.
  - destruct (outcome (Image.open fs p)) as [im | e]; [| reflexivity].
    rewrite log_bind_eq, existsb_app. apply orb_false_iff. split.
    + apply image_ops_open_nothing, resize_canvas_log_ops.
    + destruct (outcome (resize_canvas resample im tw th fit bg margin));
        [| reflexivity].
      rewrite log_bind_eq, existsb_app, IH.
      now destruct (outcome (normalize_all resample fs rest tw th fit bg
                               margin)).
Qed.

End Loop.

(** The remainder of [main] once the images are normalized. *)
Lemma main_after_loop fs o c p rest :
  is_None (opt_width o) = is_None (opt_height o) ->
  getrgb (bg o) = Some c ->
  find_images fs (paths o) = p :: rest ->
  let loop := normalize_all resample fs (p :: rest) (fst (target o))
                (snd (target o)) (fit o) c (margin o) in
  let summary := Printed (MsgSummary (List.length (p :: rest))
                            (fst (target o)) (snd (target o)) (fit o)
                            (margin o) (bg o)) in
  main resample getrgb fs o =
    match outcome loop with
    | Raise e => (summary :: log loop, Raise e)
    | Ok [] => (summary :: log loop
                  ++ match export_dir o with
                     | Some dir => [MadeDir dir]
                     | None => []
                     end, Raise IndexError)
    | Ok pages =>
        (summary :: log loop
           ++ match export_dir o with
              | Some dir => MadeDir dir :: export_events dir 1 pages
              | None => []
              end
           ++ [Saved (output o) "PDF" pages; Printed (MsgSaved (output o))],
         Ok tt)
    end.
Proof.
  intros Hwh Hc Hfind loop summary.
  rewrite (main_valid resample getrgb fs o c Hwh Hc), Hfind.
  cbv beta iota zeta. rewrite bind_ret. fold loop. fold summary.
  destruct loop as [l [pages | e]]; cbn [outcome log fst snd bind emit];
    [| reflexivity].
  destruct (export_dir o) as [dir |]; cbn [bind emit ret];
    rewrite ?export_slides_run; destruct pages as [| first more]; cbn;
    rewrite ?app_nil_r; reflexivity.
Qed.

(** X5: the parameters are checked before anything else happens: a width
    without a height (or the reverse) and, after it, a colour that Pillow
    cannot parse end the run with a BadParameter and an empty log, whatever
    the paths hold. *)
Theorem parameter_errors_come_first fs o :
  (is_None (opt_width o) <> is_None (opt_height o) ->
   main resample getrgb fs o
   = ([], Raise (BadParameter
                   "If you set --width or --height, you must set both.")))
  /\ (is_None (opt_width o) = is_None (opt_height o) ->
      getrgb (bg o) = None ->
      main resample getrgb fs o
      = ([], Raise (BadParameter ("Invalid color: " ++ bg o)%string))).
Proof.
  split.
  - intros H. unfold main.
    destruct (opt_width o), (opt_height o); cbn [is_None] in H;
      try congruence; reflexivity.
  - intros H Hc. unfold main, hex_to_rgb. rewrite Hc.
    destruct (opt_width o), (opt_height o); cbn [is_None] in H;
      try congruence; cbn; destruct (square o); reflexivity.
Qed.


(** X7: a run that succeeds has saved exactly one PDF, as its last action
    before the closing message, holding one page per discovered image, in
    the order of discovery; page [k] is the canvas that [resize_canvas]
    makes of image [k], so every page is an RGB image of the one page size
    chosen by the options. *)
Theorem successful_run_pages fs o :
  outcome (main resample getrgb fs o) = Ok tt ->
  exists c pages prefix,
    getrgb (bg o) = Some c
    /\ log (main resample getrgb fs o)
       = prefix ++ [Saved (output o) "PDF" pages;
                    Printed (MsgSaved (output o))]
    /\ existsb is_pdf_saved prefix = false
    /\ pages <> []
    /\ Forall2 (is_page resample fs (fst (target o)) (snd (target o))
                  (fit o) c (margin o))
         (find_images fs (paths o)) pages
    /\ Forall (fun pg => size pg = target o /\ mode pg = "RGB") pages.
Proof.
  intros H.
  destruct (main_cases getrgb o) as [[Hwh [c Hc]] | Hbad].
  2:{ destruct (main_invalid resample getrgb fs o Hbad) as [msg E].
      rewrite E in H. discriminate. }
  destruct (find_images fs (paths o)) as [| p rest] eqn:Hfind.
  { rewrite (main_valid resample getrgb fs o c Hwh Hc), Hfind in H.
    discriminate. }
  pose proof (main_after_loop fs o c p rest Hwh Hc Hfind) as E.
  cbv zeta in E.
  pose proof (normalize_all_pages fs (fst (target o)) (snd (target o))
                (fit o) c (margin o) (p :: rest)) as Hp.
  pose proof (normalize_all_writes_nothing fs (fst (target o))
                (snd (target o)) (fit o) c (margin o) (p :: rest)) as Hq.
  cbv beta in Hq.
  destruct (outcome (normalize_all resample fs (p :: rest)
                       (fst (target o)) (snd (target o)) (fit o) c
                       (margin o))) as [pages | e'];
    [| rewrite E in H; discriminate].
  destruct pages as [| first more];
    [rewrite E in H; discriminate |].
  specialize (Hp _ eq_refl). rewrite E. cbn [log fst].
  exists c, (first :: more).
  match goal with
  | |- context [?s :: ?l ++ ?x ++ [_; _]] => exists (s :: l ++ x)
  end.
  split; [exact Hc |]. split.
  { cbn [app]. now rewrite <- app_assoc. }
  repeat apply conj.
  - cbn [existsb app is_pdf_saved orb]. rewrite existsb_app.
    apply orb_false_iff. split.
    + now apply no_write_no_pdf.
    + destruct (export_dir o) as [dir |]; [| reflexivity].
      cbn [existsb]. unfold export_events.
      induction (combine _ _) as [| kp l IH]; [reflexivity |].
      cbn [map existsb]. exact IH.
  - discriminate.
  - exact Hp.
  - clear - Hp. induction Hp as [| q pg qs pgs (im & _ & Hrc) _ IH];
      constructor; [| exact IH].
    destruct (resize_canvas_shape _ _ _ _ _ _ _ _ Hrc) as (Hw & Hh & Hm & _).
    split; [| exact Hm]. unfold size. rewrite Hw, Hh.
    now destruct (target o).
Qed.

(** X8: the images are opened one at a time in the order of discovery, and
    none after the first failure: the files opened by a run are a prefix of
    the discovered list, and the whole list when the run succeeds. *)
Theorem images_opened_in_order fs o :
  exists n,
    opened_paths (log (main resample getrgb fs o))
    = firstn n (find_images fs (paths o))
    /\ (outcome (main resample getrgb fs o) = Ok tt ->
        n = List.length (find_images fs (paths o))).
Proof.
  destruct (main_cases getrgb o) as [[Hwh [c Hc]] | Hbad].
  2:{ destruct (main_invalid resample getrgb fs o Hbad) as [msg ->].
      exists 0%nat. split; [reflexivity | discriminate]. }
  destruct (find_images fs (paths o)) as [| p rest] eqn:Hfind.
  { rewrite (main_valid resample getrgb fs o c Hwh Hc), Hfind.
    exists 0%nat. split; [reflexivity | discriminate]. }
  pose proof (main_after_loop fs o c p rest Hwh Hc Hfind) as E.
  cbv zeta in E.
  destruct (normalize_all_opened fs (fst (target o)) (snd (target o))
              (fit o) c (margin o) (p :: rest)) as (n & Ho & Hn).
  exists n.
  destruct (outcome (normalize_all resample fs (p :: rest)
                       (fst (target o)) (snd (target o)) (fit o) c
                       (margin o))) as [pages | e'].
  - assert (En : n = List.length (p :: rest)) by now apply (Hn pages).
    assert (Hexp : forall dir k pgs,
               opened_paths (export_events dir k pgs) = []).
    { intros dir k pgs. unfold export_events.
      induction (combine _ _) as [| kp l IH]; [reflexivity | exact IH]. }
    assert (Hrest : forall l : list event,
               opened_paths l = [] ->
               opened_paths
                 (log (normalize_all resample fs (p :: rest) (fst (target o))
                         (snd (target o)) (fit o) c (margin o)) ++ l)
               = firstn n (p :: rest)).
    { intros l Hl. now rewrite opened_paths_app, Ho, Hl, app_nil_r. }
    split; [| intros _; exact En].
    rewrite E. destruct pages as [| first more]; cbn [log fst opened_paths];
      apply Hrest; destruct (export_dir o) as [dir |];
      rewrite ?opened_paths_app; cbn [opened_paths app]; rewrite ?Hexp;
      reflexivity.
  - rewrite E. cbn [log fst opened_paths outcome snd].
    split; [exact Ho | discriminate].
Qed.

End Effects.


(** ** The exported slides *)

Lemma length_append (s t : string) :
  String.length (s ++ t) = (String.length s + String.length t)%nat.
Proof. induction s as [| c s IH]; cbn; [reflexivity | now rewrite IH]. Qed.

Lemma substring_prefix (s t : string) :
  substring 0 (String.length s) (s ++ t) = s.
Proof.
  induction s as [| c s IH]; cbn.
  - now destruct t.
  - now rewrite IH.
Qed.

Lemma format_02d_parse (i : nat) : parse_decimal (format_02d i) = Some i.
Proof.
  unfold format_02d, parse_decimal.
  pose proof (NilEmpty.usu (Nat.to_uint i)) as Hu.
  pose proof (Unsigned.of_to i) as Hi.
  destruct (NilEmpty.string_of_uint (Nat.to_uint i)) as [| c s] eqn:Es.
  - cbn in Hu. injection Hu as Hu. rewrite <- Hu in Hi. cbn in Hi.
    subst i. reflexivity.
  - destruct (Nat.ltb (String.length (String c s)) 2).
    + replace (NilEmpty.uint_of_string ("0" ++ String c s))
        with (option_map Decimal.D0 (NilEmpty.uint_of_string (String c s)))
        by (cbn; now destruct (uint_of_char c (NilEmpty.uint_of_string s))).
      rewrite Hu. cbn [option_map]. f_equal.
      rewrite <- Hi at 2. reflexivity.
    + rewrite Hu. cbn. now rewrite Hi.
Qed.

Lemma format_02d_length (i : nat) :
  (2 <= String.length (format_02d i))%nat
  /\ ((i < 100)%nat -> String.length (format_02d i) = 2%nat).
Proof.
  split.
  - unfold format_02d.
    destruct (NilEmpty.string_of_uint (Nat.to_uint i)) as [| c s];
      [cbn; lia |].
    destruct (Nat.ltb (String.length (String c s)) 2) eqn:E.
    + cbn. lia.
    + apply Nat.ltb_ge in E. exact E.
  - intros Hi.
    assert (H : forallb (fun k => Nat.eqb (String.length (format_02d k)) 2)
                  (seq 0 100) = true) by (vm_compute; reflexivity).
    rewrite forallb_forall in H. apply Nat.eqb_eq, H, in_seq. lia.
Qed.

Lemma slide_path_name (dir : Path) (i : nat) :
  name (slide_path dir i) = ("slide_" ++ format_02d i ++ ".jpg")%string.
Proof. unfold name, slide_path. apply last_last. Qed.

Lemma slide_number_slide_path (dir : Path) (i : nat) :
  slide_number (slide_path dir i) = Some i.
Proof.
  unfold slide_number. rewrite slide_path_name.
  cbn [String.append strip_prefix Ascii.eqb Bool.eqb].
  rewrite length_append. cbn [String.length].
  replace (String.length (format_02d i) + 4 - 4)%nat
    with (String.length (format_02d i)) by lia.
  rewrite substring_prefix. apply format_02d_parse.
Qed.

Lemma slide_path_inj dir i j : slide_path dir i = slide_path dir j -> i = j.
Proof.
  intros H.
  pose proof (slide_number_slide_path dir i) as Hi.
  pose proof (slide_number_slide_path dir j) as Hj.
  rewrite H in Hi. congruence.
Qed.

(** X10: the number of a slide can be read back from the name of its
    exported file, so no two slides share a file; the number is written
    with two digits up to 99 and with as many as it needs beyond. *)
Theorem slide_number_round_trip (dir : Path) (i j : nat) :
  slide_number (slide_path dir i) = Some i
  /\ name (slide_path dir i) = ("slide_" ++ format_02d i ++ ".jpg")%string
  /\ (slide_path dir i = slide_path dir j -> i = j)
  /\ (2 <= String.length (format_02d i))%nat
  /\ ((i < 100)%nat -> String.length (format_02d i) = 2%nat).
Proof.
  split; [apply slide_number_slide_path |].
  split; [apply slide_path_name |].
  split; [apply slide_path_inj |]. apply format_02d_length.
Qed.

Lemma NoDup_map_inj {A B} (f : A -> B) (l : list A) :
  (forall x y, f x = f y -> x = y) -> NoDup l -> NoDup (map f l).
Proof.
  intros Hf. induction 1 as [| x l Hx Hl IH]; cbn; constructor; [| exact IH].
  rewrite in_map_iff. intros (y & Hy & Hin). apply Hf in Hy. now subst.
Qed.

(** X9: the export loop writes, in page order, exactly one JPEG per page
    and nothing else (a save is modelled as succeeding): page [k] (from 0)
    goes to [slide_path dir (first + k)], and these paths are pairwise
    distinct. *)
Theorem export_one_file_per_page (dir : Path) (first : nat)
    (pages : list Image) :
  export_slides dir first pages = (export_events dir first pages, Ok tt)
  /\ List.length (export_events dir first pages) = List.length pages
  /\ (forall k pg, nth_error pages k = Some pg ->
        nth_error (export_events dir first pages) k
        = Some (Saved (slide_path dir (first + k)) "JPEG" [pg]))
  /\ NoDup (map (slide_path dir) (seq first (List.length pages))).
Proof.
  split; [apply export_slides_run |]. split; [| split].
  - unfold export_events.
    now rewrite length_map, length_combine, length_seq, Nat.min_id.
  - unfold export_events. revert first.
    induction pages as [| pg0 pages IH]; intros first k pg Hk.
    + destruct k; discriminate.
    + destruct k as [| k]; cbn in Hk |- *.
      * injection Hk as <-. now rewrite Nat.add_0_r.
      * rewrite (IH (S first) k pg Hk). do 3 f_equal. lia.
  - apply NoDup_map_inj; [apply slide_path_inj | apply seq_NoDup].
Qed.

(** ** More on discovery *)

Lemma chunk_compare_antisym a b :
  natsort.chunk_compare a b = CompOpp (natsort.chunk_compare b a).
Proof.
  destruct a, b; cbn; try reflexivity.
  - apply String.compare_antisym.
  - apply N.compare_antisym.
Qed.

Lemma key_compare_antisym k l :
  natsort.key_compare k l = CompOpp (natsort.key_compare l k).
Proof.
  revert l. induction k as [| a k IH]; intros [| b l]; cbn; try reflexivity.
  rewrite (chunk_compare_antisym a b).
  destruct (natsort.chunk_compare b a); cbn; auto.
Qed.

Lemma key_leb_total k l :
  natsort.key_leb k l = false -> natsort.key_leb l k = true.
Proof.
  unfold natsort.key_leb. rewrite (key_compare_antisym l k).
  now destruct (natsort.key_compare k l).
Qed.

Section SortedByKey.

Context {A : Type} (keyf : A -> string).

Let leb (a b : A) : Prop :=
  natsort.key_leb (natsort.key (keyf a)) (natsort.key (keyf b)) = true.

Lemma insert_last_sorted (x : A) (l : list A) :
  Sorted leb l -> Sorted leb (natsort.insert_last keyf x l).
Proof.
  induction 1 as [| y l Hl IH Hhd]; cbn [natsort.insert_last].
  - repeat constructor.
  - destruct (natsort.key_leb (natsort.key (keyf y)) (natsort.key (keyf x)))
      eqn:E.
    + constructor; [exact IH |].
      destruct l as [| z l]; cbn [natsort.insert_last].
      * constructor. exact E.
      * destruct (natsort.key_leb (natsort.key (keyf z))
                    (natsort.key (keyf x))); constructor;
          [now inversion Hhd | exact E].
    + constructor; [now constructor |]. constructor.
      apply key_leb_total. exact E.
Qed.

Lemma natsorted_sorted (l : list A) :
  Sorted leb (natsort.natsorted keyf l).
Proof.
  unfold natsort.natsorted.
  assert (G : forall acc, Sorted leb acc ->
             Sorted leb
               (fold_left (fun acc x => natsort.insert_last keyf x acc) l acc)).
  { induction l as [| x l IH]; intros acc Hacc; cbn [fold_left];
      [exact Hacc |].
    apply IH, insert_last_sorted, Hacc. }
  apply G. constructor.
Qed.

End SortedByKey.

(** X1: discovery returns exactly: the entries, of any kind, that lie at
    any depth below a directory argument and whose name ends, case for
    case, with one of the four extensions; and the arguments that are not
    directories but files whose suffix, once lower-cased, is one of them.
    Missing paths and other files are skipped without a word. *)
Theorem discovery_exact fs paths p :
  In p (find_images fs paths) <->
  exists q, In q paths
    /\ ((is_dir fs q = true
         /\ exists ext, In ext IMAGE_EXTS
              /\ (exists e, In (p, e) fs)
              /\ below q p = true /\ endswith (name p) ext = true)
        \/ (is_dir fs q = false /\ q = p /\ is_file fs p = true
            /\ in_exts (lower (suffix p)) = true)).
Proof. apply find_images_In. Qed.

(** X3: discovery returns its files in natural order of their names: each
    file's key is at most the key of the next one; the directory part of
    a path plays no role in the order. *)
Theorem find_images_sorted fs paths :
  Sorted (fun p q => name_leb p q = true) (find_images fs paths).
Proof. unfold find_images. apply (natsorted_sorted name). Qed.

(** X2: discovery treats its arguments one by one and removes nothing:
    the result for two lists of arguments is, up to the order, the result
    for the first followed by the result for the second, so a picture that
    is reached twice is returned twice. *)
Theorem find_images_app fs paths1 paths2 :
  Permutation (find_images fs (paths1 ++ paths2))
    (find_images fs paths1 ++ find_images fs paths2).
Proof.
  unfold find_images.
  rewrite !(natsorted_perm name). now rewrite flat_map_app.
Qed.

(** X4: what the search of a directory finds is not checked to be a file:
    a directory below the argument whose name ends with one of the
    extensions is returned by discovery, and opening it fails. *)
Theorem find_images_returns_directories fs d q ext :
  is_dir fs d = true -> is_dir fs q = true -> In ext IMAGE_EXTS ->
  below d q = true -> endswith (name q) ext = true ->
  In q (find_images fs [d])
  /\ Image.open fs q = ([], Raise IsADirectoryError).
Proof.
  intros Hd Hq Hext Hbelow Hends. split.
  - apply find_images_In. exists d. split; [now left |]. left.
    split; [exact Hd |]. exists ext. repeat split; try assumption.
    unfold is_dir in Hq.
    destruct (lookup fs q) as [[| c] |] eqn:E; try discriminate.
    exists Directory. clear - E.
    induction fs as [| [r e] fs IH]; [discriminate |].
    cbn [lookup] in E. unfold path_eqb in E.
    destruct (list_eq_dec string_dec r q) as [-> | _].
    + injection E as ->. now left.
    + right. now apply IH.
  - unfold Image.open, is_dir in *.
    now destruct (lookup fs q) as [[| c] |].
Qed.


(** ** The further properties at concrete inputs *)

(** X11 for the landscape picture with a margin of 40 pixels. *)
Lemma margin_band_is_background_witness :
  exists canvas,
    outcome (resize_canvas Sample.nearest Sample.landscape 1080 1350
               "contain" Sample.white 40) = Ok canvas
    /\ getpixel canvas 39 700 = Some Sample.white.
Proof.
  eexists. split; [reflexivity |].
  apply (margin_band_is_background Sample.nearest Sample.landscape 1080 1350
           "contain" Sample.white 40);
    [lia | lia | reflexivity | reflexivity | left; lia].
Defined.

(** X12 for the same picture in cover mode. *)
Lemma cover_leaves_no_background_witness :
  exists canvas fitted,
    outcome (resize_canvas Sample.nearest Sample.landscape 1080 1350
               "cover" Sample.white 40) = Ok canvas
    /\ getpixel canvas 40 40 = Some (rgbdata fitted 0 0).
Proof.
  eexists.
  destruct (cover_leaves_no_background Sample.nearest Sample.landscape
              1080 1350 Sample.white 40 _ ltac:(lia) ltac:(lia) ltac:(lia)
              eq_refl) as (flat & fitted & _ & _ & H).
  exists fitted. split; [reflexivity |].
  apply (H 40 40); lia.
Defined.

(** X16 for the landscape picture, letterboxed with a margin of 40. *)
Lemma fitted_image_fully_visible_witness :
  exists canvas fitted,
    outcome (resize_canvas Sample.nearest Sample.landscape 1080 1350
               "contain" Sample.white 40) = Ok canvas
    /\ size fitted = (1000, 500)
    /\ getpixel canvas (40 + 999) (425 + 499) = Some (rgbdata fitted 999 499).
Proof.
  eexists.
  destruct (fitted_image_fully_visible Sample.nearest Sample.landscape
              1080 1350 "contain" Sample.white 40 _ ltac:(lia) ltac:(lia)
              ltac:(lia) eq_refl) as (flat & fitted & Hflat & Hfit & _ & _ & H).
  exists fitted. split; [reflexivity |].
  injection Hflat as <-. injection Hfit as <-.
  split; [reflexivity |]. apply (H 999 499). reflexivity.
Defined.

(** X13 for a 3x3 page with a margin of 5. *)
Lemma collapsed_box_single_pixel_witness :
  exists canvas,
    outcome (resize_canvas Sample.nearest Sample.card 3 3 "cover"
               Sample.white 5) = Ok canvas
    /\ getpixel canvas 0 0 = Some Sample.white
    /\ getpixel canvas 2 1 = Some Sample.white.
Proof.
  eexists. split; [reflexivity |].
  split;
    apply (collapsed_box_single_pixel Sample.nearest Sample.card 3 3
             "cover" Sample.white 5);
    try lia; try reflexivity; discriminate.
Defined.

(** X14 for the 100x80 card on a 120x100 page with a margin of 10. *)
Lemma exact_fit_is_copied_witness :
  exists canvas,
    resize_canvas Sample.nearest Sample.card 120 100 "cover" Sample.white 10
    = ([Converted "RGB"; Allocated 120 100; Pasted 10 10], Ok canvas)
    /\ getpixel canvas 10 10 = Some (0, 0, 7)
    /\ getpixel canvas 109 89 = Some (99, 79, 7).
Proof.
  destruct (exact_fit_is_copied Sample.nearest Sample.card 120 100 "cover"
              Sample.white 10 (or_intror eq_refl) ltac:(lia) ltac:(lia)
              ltac:(change (1 <= 100); lia) ltac:(change (1 <= 80); lia)
              eq_refl eq_refl)
    as (flat & canvas & Hflat & Hrun & Hpix & Hsame).
  exists canvas. split; [exact Hrun |].
  assert (Hc : outcome (resize_canvas Sample.nearest Sample.card 120 100
                          "cover" Sample.white 10) = Ok canvas)
    by now rewrite Hrun.
  destruct (resize_canvas_shape _ _ _ _ _ _ _ _ Hc) as (Hw & Hh & _).
  split.
  - rewrite (Hpix 10 10), (Hsame eq_refl); try reflexivity.
    unfold in_bounds. rewrite Hw, Hh. reflexivity.
  - rewrite (Hpix 109 89), (Hsame eq_refl); try reflexivity.
    unfold in_bounds. rewrite Hw, Hh. reflexivity.
Defined.

(** X15 for a page of width -5. *)
Lemma negative_target_refused_late_witness :
  resize_canvas Sample.nearest Sample.card (-5) 80 "cover" Sample.white 0
  = ([Converted "RGB"; Resized 1 80],
     Raise (ValueError "Width and height must be >= 0")).
Proof.
  rewrite (negative_target_refused_late Sample.nearest Sample.card (-5) 80
             "cover" Sample.white 0 _ _ ltac:(left; lia) eq_refl eq_refl).
  reflexivity.
Defined.

(** X5 for [--width 500] alone, and for [--bg nocolor]. *)
Lemma parameter_errors_come_first_witness :
  main Sample.nearest Sample.getrgb_hex Sample.deck
    (mkOptions [["deck"]] ["carousel.pdf"] false (Some 500) None "contain"
       "#ffffff" 0 92 None)
  = ([], Raise (BadParameter
                  "If you set --width or --height, you must set both."))
  /\ main Sample.nearest Sample.getrgb_hex Sample.deck
       (mkOptions [["deck"]] ["carousel.pdf"] false None None "contain"
          "nocolor" 0 92 None)
     = ([], Raise (BadParameter "Invalid color: nocolor")).
Proof.
  split.
  - apply (proj1 (parameter_errors_come_first Sample.nearest
                    Sample.getrgb_hex Sample.deck _)).
    discriminate.
  - apply (proj2 (parameter_errors_come_first Sample.nearest
                    Sample.getrgb_hex Sample.deck
                    (mkOptions [["deck"]] ["carousel.pdf"] false None None
                       "contain" "nocolor" 0 92 None)));
      reflexivity.
Defined.


(** X7 for the talk of three slides. *)
Lemma successful_run_pages_witness :
  find_images Sample.talk [["talk"]]
  = [["talk"; "s1.webp"]; ["talk"; "s2.jpg"]; ["talk"; "s10.png"]]
  /\ exists pages,
       List.length pages = 3%nat
       /\ Forall (fun pg => size pg = (1080, 1080) /\ mode pg = "RGB") pages
       /\ In (Saved ["carousel.pdf"] "PDF" pages)
            (log (main Sample.nearest Sample.getrgb_hex Sample.talk
                    (mkOptions [["talk"]] ["carousel.pdf"] true None None
                       "cover" "#ffffff" 0 92 None))).
Proof.
  split; [reflexivity |].
  destruct (successful_run_pages Sample.nearest Sample.getrgb_hex Sample.talk
              (mkOptions [["talk"]] ["carousel.pdf"] true None None
                 "cover" "#ffffff" 0 92 None) eq_refl)
    as (c & pages & prefix & _ & Hlog & _ & _ & Hpages & Hsize).
  exists pages. split; [| split].
  - apply Forall2_length in Hpages. rewrite <- Hpages. reflexivity.
  - exact Hsize.
  - rewrite Hlog. apply in_or_app. right. now left.
Defined.

(** X8 for the directory whose second slide is not an image: the third
    slide is never opened. *)
Lemma images_opened_in_order_witness :
  opened_paths
    (log (main Sample.nearest Sample.getrgb_hex Sample.torn
            (Sample.options [["talk"]] "contain")))
  = [["talk"; "a1.png"]; ["talk"; "a2.png"]]
  /\ exists n,
       opened_paths
         (log (main Sample.nearest Sample.getrgb_hex Sample.torn
                 (Sample.options [["talk"]] "contain")))
       = firstn n (find_images Sample.torn [["talk"]]).
Proof.
  split; [reflexivity |].
  destruct (images_opened_in_order Sample.nearest Sample.getrgb_hex
              Sample.torn (Sample.options [["talk"]] "contain"))
    as (n & Hn & _).
  exists n. exact Hn.
Defined.

(** X9 for two pages exported to [out]. *)
Lemma export_one_file_per_page_witness :
  nth_error (export_events ["out"] 1 [Sample.card; Sample.landscape]) 1
  = Some (Saved ["out"; "slide_02.jpg"] "JPEG" [Sample.landscape]).
Proof.
  destruct (export_one_file_per_page ["out"] 1
              [Sample.card; Sample.landscape]) as (_ & _ & H & _).
  exact (H 1%nat Sample.landscape eq_refl).
Defined.

(** X10 for slides 7 and 123. *)
Lemma slide_number_round_trip_witness :
  slide_path ["out"] 7 = ["out"; "slide_07.jpg"]
  /\ slide_path ["out"] 123 = ["out"; "slide_123.jpg"]
  /\ slide_number ["out"; "slide_07.jpg"] = Some 7%nat
  /\ String.length (format_02d 7) = 2%nat.
Proof.
  destruct (slide_number_round_trip ["out"] 7 7) as (Hn & _ & _ & _ & Hlen).
  split; [reflexivity |]. split; [reflexivity |].
  split; [exact Hn | apply Hlen; lia].
Defined.

(** X4 for a directory named [old.png]. *)
Lemma find_images_returns_directories_witness :
  In ["album"; "old.png"] (find_images Sample.album [["album"]])
  /\ Image.open Sample.album ["album"; "old.png"]
     = ([], Raise IsADirectoryError).
Proof.
  apply (find_images_returns_directories Sample.album ["album"]
           ["album"; "old.png"] ".png"); try reflexivity.
  now left.
Defined.
